(** * cloudify.context: the plugin invocation context

    A shallow embedding of [cloudify/context.py] and the properties of its
    three classes: [ContextCapabilities], [CloudifyRelatedNode] and
    [CloudifyContext].

    Python dictionaries are finite maps ([gmap]); a method that may raise
    returns a [result]; a method of [CloudifyContext], which reads and writes
    the object's attributes and talks to the storage and to the [logging]
    module, is a computation in a state-and-exception monad whose state
    survives a raise, as the attributes of a Python object do. *)

From stdpp Require Import gmap strings list fin_maps.
From Stdlib Require Import ZArith.
From Equations Require Import Equations.

(** ** Values, dictionaries, exceptions *)

(** The values stored under property keys. *)
Inductive value :=
| VNone
| VBool (b : bool)
| VInt (z : Z)
| VStr (s : string).

#[global] Instance value_eq_dec : EqDecision value.
Proof. solve_decision. Defined.

(** A properties dictionary, and the [capabilities] dictionary that maps a
    dependency node id to that node's runtime properties. *)
Abbreviation dict := (gmap string value).
Abbreviation capabilities_dict := (gmap string (gmap string value)).

(** The text of an exception, kept structured: the two formatted messages of
    [ContextCapabilities] carry the key and the whole capabilities
    dictionary that the source interpolates into them. *)
Inductive message :=
| MsgCapabilityAmbiguity (key : string) (capabilities : capabilities_dict)
    (* "'{0}' capability ambiguity [capabilities={1}]" *)
| MsgCapabilityNotFound (key : string) (capabilities : capabilities_dict)
    (* "capability '{0}' not found [capabilities={1}]" *)
| MsgRequiresNode
    (* 'Invocation requires a node in context' *)
| MsgNoNodeState
    (* 'Cannot get node state - invocation is not in a context of node' *)
| MsgKey (key : string)
    (* the missing key of a failed dictionary subscript *)
| MsgNoneType.
    (* an attribute or a subscript of None *)

Inductive exn :=
| RuntimeError (m : message)
| KeyError (m : message)
| AttributeError (m : message)
| TypeError (m : message).

Inductive result (A : Type) :=
| Ok (a : A)
| Raise (e : exn).
Arguments Ok {A} a.
Arguments Raise {A} e.

#[global] Instance result_ret : MRet result := fun _ a => Ok a.
#[global] Instance result_bind : MBind result := fun _ _ f r =>
  match r with
  | Ok a => f a
  | Raise e => Raise e
  end.

(** [d[key]] on a dictionary. *)
Definition subscript (d : dict) (key : string) : result value :=
  match d !! key with
  | Some v => Ok v
  | None => Raise (KeyError (MsgKey key))
  end.

(** [key in d] on a dictionary. *)
Definition has_key {A : Type} (d : gmap string A) (key : string) : bool :=
  bool_decide (is_Some (d !! key)).

(** The failures as the specification names them. *)
Definition CapabilityAmbiguous (key : string) (capabilities : capabilities_dict) : exn :=
  RuntimeError (MsgCapabilityAmbiguity key capabilities).

Definition CapabilityNotFound (key : string) (capabilities : capabilities_dict) : exn :=
  KeyError (MsgCapabilityNotFound key capabilities).

Definition KeyNotFound (key : string) : exn := KeyError (MsgKey key).

Definition NoNodeInContext (e : exn) : Prop :=
  e = RuntimeError MsgRequiresNode \/ e = RuntimeError MsgNoNodeState.

(** ** The invocation payload

    The dictionary handed to [CloudifyContext.__init__]. Each key the source
    reads is a field; [None] stands for a key that the dictionary lacks. *)
Module Payload.

Record related_t := mk_related {
  related_node_id : option string;
  related_node_properties : option dict
}.

Record t := mk {
  node_id : option string;
  node_name : option string;
  node_properties : option dict;
  capabilities : option capabilities_dict;
  related : option related_t;
  blueprint_id : option string;
  deployment_id : option string;
  execution_id : option string;
  workflow_id : option string;
  task_id : option string;
  task_name : option string;
  task_target : option string;
  plugin : option string;
  operation : option string
}.

(** The empty dictionary, [{}]. *)
Definition empty : t :=
  mk None None None None None None None None None None None None None None.

End Payload.

(** ** class ContextCapabilities *)
Module ContextCapabilities.

Record t := mk { _capabilities : capabilities_dict }.

Definition __init__ (capabilities : option capabilities_dict) : t :=
  match capabilities with
  | None => mk ∅
  | Some capabilities => mk capabilities
  end.

(** The body of the [for caps in self._capabilities.values()] loop of
    [_find_item], run over the values that are left, with the loop's two
    variables as accumulators. *)
Fixpoint find_item_loop (capabilities : capabilities_dict) (key : string)
    (values : list dict) (found : bool) (value_ : value) : result (bool * value) :=
  match values with
  | [] => Ok (found, value_)
  | caps :: values =>
      match caps !! key with
      | Some v =>
          if found
          then Raise (RuntimeError (MsgCapabilityAmbiguity key capabilities))
          else find_item_loop capabilities key values true v
      | None => find_item_loop capabilities key values found value_
      end
  end.

(** [dict.values()]: the values in the dictionary's iteration order. The
    order is that of the finite map; the loop's result is the same for
    every order. *)
Definition values (capabilities : capabilities_dict) : list dict :=
  (map_to_list capabilities).*2.

Definition _find_item (self : t) (key : string) : result (bool * value) :=
  find_item_loop (_capabilities self) key (values (_capabilities self)) false VNone.

Definition __getitem__ (self : t) (key : string) : result value :=
  '(found, value_) ← _find_item self key;
  if negb found
  then Raise (KeyError (MsgCapabilityNotFound key (_capabilities self)))
  else Ok value_.

Definition __contains__ (self : t) (key : string) : result bool :=
  '(found, _) ← _find_item self key;
  Ok found.

Definition get_all (self : t) : capabilities_dict := _capabilities self.

(** [str(self._capabilities)], the text that Python gives a dictionary, is
    left open: [str_capabilities] stands for it. *)
Definition __str__ (str_capabilities : capabilities_dict -> string) (self : t) : string :=
  String.append "<"
    (String.append "ContextCapabilities"
       (String.append " " (String.append (str_capabilities (_capabilities self)) ">"))).

End ContextCapabilities.

(** ** class CloudifyRelatedNode *)
Module CloudifyRelatedNode.

Record t := mk {
  _related : Payload.related_t;
  _runtime_properties : dict
}.

(** [related['node_id']] and [related['node_properties']]. *)
Definition related_id (related : Payload.related_t) : result string :=
  match Payload.related_node_id related with
  | Some n => Ok n
  | None => Raise (KeyError (MsgKey "node_id"))
  end.

Definition node_id (self : t) : result string := related_id (_related self).

Definition properties (self : t) : result dict :=
  match Payload.related_node_properties (_related self) with
  | Some p => Ok p
  | None => Raise (KeyError (MsgKey "node_properties"))
  end.

Definition runtime_properties (self : t) : dict := _runtime_properties self.

(** The [and] of the constructor evaluates [self.node_id] only when the
    payload has a ['capabilities'] key. *)
Definition __init__ (ctx : Payload.t) : result t :=
  match Payload.related ctx with
  | None => Raise (KeyError (MsgKey "related"))
  | Some related =>
      match Payload.capabilities ctx with
      | Some capabilities =>
          n ← related_id related;
          match capabilities !! n with
          | Some runtime => Ok (mk related runtime)
          | None => Ok (mk related ∅)
          end
      | None => Ok (mk related ∅)
      end
  end.

Definition __getitem__ (self : t) (key : string) : result value :=
  props ← properties self;
  if has_key props key
  then subscript props key
  else subscript (_runtime_properties self) key.

Definition __contains__ (self : t) (key : string) : result bool :=
  props ← properties self;
  Ok (has_key props key || has_key (_runtime_properties self) key).

End CloudifyRelatedNode.

(** ** The collaborators: module [manager] *)

(** Modelled from the spec: class [NodeState] of module [manager], which the
    source imports and which is not part of it. It is "the mutable,
    storage-backed runtime-properties record for the in-context node",
    "identified by node identifier", and "must support indexed
    get/set/contains on itself (the record itself behaves as a small
    key-value store)"; a combined lookup of a key that it lacks "fails with
    KeyNotFound". *)
Module NodeState.

Record t := mk {
  id : string;
  runtime_properties : dict
}.

Definition __getitem__ (self : t) (key : string) : result value :=
  subscript (runtime_properties self) key.

Definition __setitem__ (self : t) (key : string) (v : value) : t :=
  mk (id self) (<[key := v]> (runtime_properties self)).

Definition __contains__ (self : t) (key : string) : bool :=
  has_key (runtime_properties self) key.

End NodeState.

#[global] Instance NodeState_eq_dec : EqDecision NodeState.t.
Proof. solve_decision. Defined.

(** Modelled from the spec: the storage behind [manager.get_node_state] and
    [manager.update_node_state], "opaque services behind two operations":
    [get_node_state(node_id) -> NodeState] "returns the current persisted
    runtime-properties record for a node" and
    [update_node_state(node_state) -> void] "persists an entire NodeState
    record". A storage is any type with these two operations. *)
Class Manager (B : Type) := {
  stored_node_state : B -> string -> NodeState.t;
  store_node_state : B -> NodeState.t -> B
}.

(** The calls that reach the storage, in the order they are made. *)
Inductive storage_call :=
| GetNodeState (node_id : string)
| UpdateNodeState (node_state : NodeState.t).

#[global] Instance storage_call_eq_dec : EqDecision storage_call.
Proof. solve_decision. Defined.

Definition is_get_node_state (c : storage_call) : bool :=
  match c with
  | GetNodeState _ => true
  | UpdateNodeState _ => false
  end.

Definition is_update_node_state (c : storage_call) : bool :=
  match c with
  | GetNodeState _ => false
  | UpdateNodeState _ => true
  end.

(** ** The collaborators: module [logging] of the Python library

    A logger is an object that [logging.getLogger(name)] creates on the
    first request for [name] and hands out again on every later one; the
    registry maps the name to the object's attributes, and a reference to
    a logger is its name. *)
Module logging.

Definition NOTSET : Z := 0.
Definition INFO : Z := 20.

(** The handler that the context attaches is an instance of
    [logs.CloudifyPluginLoggingHandler], a class outside the source; any
    other handler is some other class. [handler_id] is the identity of
    the object: handlers have no [__eq__], so [in] and [list.remove]
    compare identities. *)
Inductive handler_class :=
| OtherHandler
| CloudifyPluginLoggingHandler.

Record Handler := mk_handler {
  handler_id : nat;
  handler_cls : handler_class;
  formatter : option string
}.

Record Logger := mk_logger {
  level : Z;
  handlers : list Handler;
  propagate : bool
}.

#[global] Instance handler_class_eq_dec : EqDecision handler_class.
Proof. solve_decision. Defined.

#[global] Instance Handler_eq_dec : EqDecision Handler.
Proof. solve_decision. Defined.

(** [Logger(name)]: level NOTSET, no handlers, propagate on. *)
Definition new_logger : Logger := mk_logger NOTSET [] true.

(** [logging.getLogger(name)], as its effect on the registry. *)
Definition getLogger (name : string) (registry : gmap string Logger) : gmap string Logger :=
  match registry !! name with
  | Some _ => registry
  | None => <[name := new_logger]> registry
  end.

Definition setLevel (lvl : Z) (self : Logger) : Logger :=
  mk_logger lvl (handlers self) (propagate self).

Definition set_propagate (b : bool) (self : Logger) : Logger :=
  mk_logger (level self) (handlers self) b.

Definition setFormatter (fmt : string) (h : Handler) : Handler :=
  mk_handler (handler_id h) (handler_cls h) (Some fmt).

(** [list.remove(x)]: drops the first element equal to [x]. *)
Fixpoint list_remove (h : Handler) (l : list Handler) : list Handler :=
  match l with
  | [] => []
  | x :: l => if decide (x = h) then l else x :: list_remove h l
  end.

(** [if hdlr in self.handlers: self.handlers.remove(hdlr)] *)
Definition removeHandler (h : Handler) (self : Logger) : Logger :=
  if decide (h ∈ handlers self)
  then mk_logger (level self) (list_remove h (handlers self)) (propagate self)
  else self.

(** [if not (hdlr in self.handlers): self.handlers.append(hdlr)] *)
Definition addHandler (h : Handler) (self : Logger) : Logger :=
  if decide (h ∈ handlers self)
  then self
  else mk_logger (level self) (handlers self ++ [h]) (propagate self).

End logging.

(** A value together with the proof that it is the value of the term. *)
Definition observed {A : Type} (a : A) : { b : A | a = b } := exist _ a eq_refl.

(** [for h in self._logger.handlers: self._logger.removeHandler(h)]

    Python's list iterator holds the list and an index: each round reads
    the element at the index from the list as it is by then, or stops when
    the index has reached the length, and moves the index on by one. The
    body removes from that very list. *)
Equations? remove_handlers_loop (i : nat) (logger : logging.Logger) : logging.Logger
    by wf (length (logging.handlers logger) - i) lt :=
  remove_handlers_loop i logger with observed (logging.handlers logger !! i) := {
    | exist _ (Some h) E => remove_handlers_loop (S i) (logging.removeHandler h logger)
    | exist _ None _ => logger }.
Proof.
  pose proof (lookup_lt_Some _ _ _ E) as Hlt.
  assert (h ∈ logging.handlers logger) as Hin by (apply list_elem_of_lookup; eauto).
  unfold logging.removeHandler. destruct (decide (h ∈ logging.handlers logger)); [|done].
  simpl.
  assert (S (length (logging.list_remove h (logging.handlers logger)))
          = length (logging.handlers logger)) as Hlen.
  { clear -Hin. induction (logging.handlers logger) as [|x l IH];
      [by apply elem_of_nil in Hin|].
    simpl. destruct (decide (x = h)) as [->|Hne]; [done|].
    simpl. f_equal. apply IH.
    apply elem_of_cons in Hin as [?|?]; [congruence|done]. }
  lia.
Qed.

(** ** class CloudifyContext *)
Module CloudifyContext.

Definition STARTED : string := "started".
Definition STOPPED : string := "stopped".

(** The attributes of a context object. [_logger] refers to a logger of
    the [logging] registry by its name. *)
Record t := mk {
  _context : Payload.t;
  _capabilities : ContextCapabilities.t;
  _logger : option string;
  _node_state : option NodeState.t;
  _lifecycle_state : option string;
  _related : option CloudifyRelatedNode.t
}.

Definition __init__ (ctx : option Payload.t) : result t :=
  let ctx := match ctx with Some ctx => ctx | None => Payload.empty end in
  let context_capabilities :=
    match Payload.capabilities ctx with
    | Some capabilities => capabilities
    | None => ∅
    end in
  let capabilities := ContextCapabilities.__init__ (Some context_capabilities) in
  related ← match Payload.related ctx with
            | Some _ => r ← CloudifyRelatedNode.__init__ ctx; Ok (Some r)
            | None => Ok None
            end;
  Ok (mk ctx capabilities None None None related).

(** Assignments to one attribute. *)
Definition with_logger (l : option string) (o : t) : t :=
  mk (_context o) (_capabilities o) l (_node_state o) (_lifecycle_state o) (_related o).

Definition with_node_state (n : option NodeState.t) (o : t) : t :=
  mk (_context o) (_capabilities o) (_logger o) n (_lifecycle_state o) (_related o).

Definition with_lifecycle_state (l : option string) (o : t) : t :=
  mk (_context o) (_capabilities o) (_logger o) (_node_state o) l (_related o).

Section methods.

Context {B : Type} `{!Manager B}.

(** What a method can read and write: the object, the storage with the
    record of the calls made to it, the loggers of the [logging] module,
    and the identity that the next new handler object gets. *)
Record State := mkState {
  self : t;
  storage : B;
  calls : list storage_call;
  loggers : gmap string logging.Logger;
  next_handler_id : nat
}.

(** A computation either returns or raises, and leaves the state as it
    is at that moment. *)
Definition M (A : Type) : Type := State -> result A * State.

Definition ret {A : Type} (a : A) : M A := fun s => (Ok a, s).

Definition bind {A C : Type} (m : M A) (k : A -> M C) : M C := fun s =>
  match m s with
  | (Ok a, s') => k a s'
  | (Raise e, s') => (Raise e, s')
  end.

Definition raise {A : Type} (e : exn) : M A := fun s => (Raise e, s).

Definition lift {A : Type} (r : result A) : M A := fun s => (r, s).

Definition read : M t := fun s => (Ok (self s), s).

Definition assign (f : t -> t) : M unit := fun s =>
  (Ok tt, mkState (f (self s)) (storage s) (calls s) (loggers s) (next_handler_id s)).

(** [manager.get_node_state(node_id)] *)
Definition get_node_state (node_id : string) : M NodeState.t := fun s =>
  (Ok (stored_node_state (storage s) node_id),
   mkState (self s) (storage s) (calls s ++ [GetNodeState node_id])
           (loggers s) (next_handler_id s)).

(** [manager.update_node_state(node_state)] *)
Definition update_node_state (node_state : NodeState.t) : M unit := fun s =>
  (Ok tt,
   mkState (self s) (store_node_state (storage s) node_state)
           (calls s ++ [UpdateNodeState node_state])
           (loggers s) (next_handler_id s)).

(** [logging.getLogger(name)]: the reference it returns is [name]. *)
Definition getLogger (name : string) : M string := fun s =>
  (Ok name,
   mkState (self s) (storage s) (calls s)
           (logging.getLogger name (loggers s)) (next_handler_id s)).

(** A method call or an attribute assignment on the logger [name]. *)
Definition on_logger (name : string) (f : logging.Logger -> logging.Logger) : M unit :=
  fun s =>
    (Ok tt,
     mkState (self s) (storage s) (calls s)
             (alter f name (loggers s)) (next_handler_id s)).

(** [CloudifyPluginLoggingHandler(self)]: a new handler object. *)
Definition new_CloudifyPluginLoggingHandler : M logging.Handler := fun s =>
  (Ok (logging.mk_handler (next_handler_id s) logging.CloudifyPluginLoggingHandler None),
   mkState (self s) (storage s) (calls s) (loggers s) (S (next_handler_id s))).

#[global] Instance M_ret : MRet M := fun _ a => ret a.
#[global] Instance M_bind : MBind M := fun _ _ k m => bind m k.

(** *** The read-only accessors of the payload *)

Definition node_id : M (option string) :=
  o ← read; mret (Payload.node_id (_context o)).

Definition node_name : M (option string) :=
  o ← read; mret (Payload.node_name (_context o)).

Definition properties : M (option dict) :=
  o ← read; mret (Payload.node_properties (_context o)).

Definition blueprint_id : M (option string) :=
  o ← read; mret (Payload.blueprint_id (_context o)).

Definition deployment_id : M (option string) :=
  o ← read; mret (Payload.deployment_id (_context o)).

Definition execution_id : M (option string) :=
  o ← read; mret (Payload.execution_id (_context o)).

Definition workflow_id : M (option string) :=
  o ← read; mret (Payload.workflow_id (_context o)).

Definition task_id : M (option string) :=
  o ← read; mret (Payload.task_id (_context o)).

Definition task_name : M (option string) :=
  o ← read; mret (Payload.task_name (_context o)).

Definition task_target : M (option string) :=
  o ← read; mret (Payload.task_target (_context o)).

Definition plugin : M (option string) :=
  o ← read; mret (Payload.plugin (_context o)).

Definition operation : M (option string) :=
  o ← read; mret (Payload.operation (_context o)).

Definition capabilities : M ContextCapabilities.t :=
  o ← read; mret (_capabilities o).

Definition related : M (option CloudifyRelatedNode.t) :=
  o ← read; mret (_related o).

(** *** The lifecycle flag *)

Definition is_set_started : M bool :=
  o ← read; mret (bool_decide (_lifecycle_state o = Some STARTED)).

Definition is_set_stopped : M bool :=
  o ← read; mret (bool_decide (_lifecycle_state o = Some STOPPED)).

Definition _verify_node_in_context : M unit :=
  n ← node_id;
  match n with
  | None => raise (RuntimeError MsgRequiresNode)
  | Some _ => mret tt
  end.

Definition set_started : M unit :=
  _ ← _verify_node_in_context;
  assign (with_lifecycle_state (Some STARTED)).

Definition set_stopped : M unit :=
  _ ← _verify_node_in_context;
  assign (with_lifecycle_state (Some STOPPED)).

(** *** The node state and its cache *)

Definition _get_node_state_if_needed : M unit :=
  n ← node_id;
  match n with
  | None => raise (RuntimeError MsgNoNodeState)
  | Some n =>
      o ← read;
      match _node_state o with
      | None =>
          node_state ← get_node_state n;
          assign (with_node_state (Some node_state))
      | Some _ => mret tt
      end
  end.

(** [self._node_state], about to be dereferenced. *)
Definition the_node_state : M NodeState.t :=
  o ← read;
  match _node_state o with
  | Some node_state => mret node_state
  | None => raise (AttributeError MsgNoneType)
  end.

Definition runtime_properties : M dict :=
  _ ← _get_node_state_if_needed;
  node_state ← the_node_state;
  mret (NodeState.runtime_properties node_state).

(** [self.properties is not None and key in self.properties] *)
Definition in_properties (props : option dict) (key : string) : bool :=
  match props with
  | Some props => has_key props key
  | None => false
  end.

Definition __getitem__ (key : string) : M value :=
  props ← properties;
  if in_properties props key
  then
    match props with
    | Some props => lift (subscript props key)
    | None => raise (TypeError MsgNoneType)
    end
  else
    _ ← _get_node_state_if_needed;
    node_state ← the_node_state;
    lift (NodeState.__getitem__ node_state key).

Definition __setitem__ (key : string) (v : value) : M unit :=
  _ ← _get_node_state_if_needed;
  node_state ← the_node_state;
  assign (with_node_state (Some (NodeState.__setitem__ node_state key v))).

Definition __contains__ (key : string) : M bool :=
  props ← properties;
  if in_properties props key
  then mret true
  else
    _ ← _get_node_state_if_needed;
    node_state ← the_node_state;
    mret (NodeState.__contains__ node_state key).

Definition update : M unit :=
  o ← read;
  match _node_state o with
  | Some node_state =>
      _ ← update_node_state node_state;
      assign (with_node_state None)
  | None => mret tt
  end.

(** *** The logger *)

Definition _init_cloudify_logger : M unit :=
  tn ← task_name;
  let logger_name :=
    match tn with
    | Some tn => tn
    | None => "cloudify_plugin"
    end in
  logger ← getLogger logger_name;
  _ ← assign (with_logger (Some logger));
  _ ← on_logger logger (logging.setLevel logging.INFO);
  _ ← on_logger logger (remove_handlers_loop 0);
  handler ← new_CloudifyPluginLoggingHandler;
  let handler := logging.setFormatter "%(message)s" handler in
  _ ← on_logger logger (logging.set_propagate true);
  on_logger logger (logging.addHandler handler).

(** The property returns [self._logger]: the name of the logger in the
    registry. *)
Definition logger : M (option string) :=
  o ← read;
  _ ← match _logger o with
      | None => _init_cloudify_logger
      | Some _ => mret tt
      end;
  o ← read;
  mret (_logger o).

(** *** The text of a context

    [__str__] reads the four attributes in turn with [getattr], which runs
    the properties, and formats each as [name=value]. The texts that
    [str.format] gives the values are left open: [str_name] for the node
    identifier, [str_properties] for the declared properties, [str_dict]
    for the runtime properties and [str_capabilities] for the dictionary
    inside the capabilities object. *)
Definition __str__ (str_name : option string -> string)
    (str_properties : option dict -> string) (str_dict : dict -> string)
    (str_capabilities : capabilities_dict -> string) : M string :=
  a_node_id ← node_id;
  a_properties ← properties;
  a_runtime_properties ← runtime_properties;
  a_capabilities ← capabilities;
  let info :=
    String.concat " "
      [ String.append "node_id=" (str_name a_node_id);
        String.append "properties=" (str_properties a_properties);
        String.append "runtime_properties=" (str_dict a_runtime_properties);
        String.append "capabilities="
          (ContextCapabilities.__str__ str_capabilities a_capabilities) ] in
  mret (String.append "<"
          (String.append "CloudifyContext" (String.append " " (String.append info ">")))).

(** *** A task body

    The calls a task can make on its context. A task may catch what a
    call raises and go on, so a sequence of calls runs to its end
    whatever each call returns. *)
Inductive call :=
| CallNodeId
| CallNodeName
| CallProperties
| CallBlueprintId
| CallDeploymentId
| CallExecutionId
| CallWorkflowId
| CallTaskId
| CallTaskName
| CallTaskTarget
| CallPlugin
| CallOperation
| CallRuntimeProperties
| CallCapabilities
| CallRelated
| CallLogger
| CallIsSetStarted
| CallIsSetStopped
| CallSetStarted
| CallSetStopped
| CallGetItem (key : string)
| CallSetItem (key : string) (v : value)
| CallContains (key : string)
| CallUpdate.

#[global] Instance call_eq_dec : EqDecision call.
Proof. solve_decision. Defined.

(** The state a computation leaves behind. *)
Definition after {A : Type} (m : M A) (s : State) : State := (m s).2.

(** The outcome of a computation. *)
Definition outcome {A : Type} (m : M A) (s : State) : result A := (m s).1.

Definition step (s : State) (c : call) : State :=
  match c with
  | CallNodeId => after node_id s
  | CallNodeName => after node_name s
  | CallProperties => after properties s
  | CallBlueprintId => after blueprint_id s
  | CallDeploymentId => after deployment_id s
  | CallExecutionId => after execution_id s
  | CallWorkflowId => after workflow_id s
  | CallTaskId => after task_id s
  | CallTaskName => after task_name s
  | CallTaskTarget => after task_target s
  | CallPlugin => after plugin s
  | CallOperation => after operation s
  | CallRuntimeProperties => after runtime_properties s
  | CallCapabilities => after capabilities s
  | CallRelated => after related s
  | CallLogger => after logger s
  | CallIsSetStarted => after is_set_started s
  | CallIsSetStopped => after is_set_stopped s
  | CallSetStarted => after set_started s
  | CallSetStopped => after set_stopped s
  | CallGetItem key => after (__getitem__ key) s
  | CallSetItem key v => after (__setitem__ key v) s
  | CallContains key => after (__contains__ key) s
  | CallUpdate => after update s
  end.

Definition run (cs : list call) (s : State) : State := foldl step s cs.

(** The state in which the host hands a new context object to a task. *)
Definition start (o : t) (b : B) (past : list storage_call)
    (registry : gmap string logging.Logger) (fresh : nat) : State :=
  mkState o b past registry fresh.

(** The storage calls made between an earlier state and a later one. *)
Definition calls_since (s s' : State) : list storage_call :=
  drop (length (calls s)) (calls s').

End methods.

Arguments State : clear implicits.
Arguments M : clear implicits.

End CloudifyContext.

(** ** The vocabulary of the properties *)

(** The dependency runtime-properties maps in which [key] appears. *)
Definition holders (capabilities : capabilities_dict) (key : string) : capabilities_dict :=
  filter (fun p => is_Some (p.2 !! key)) capabilities.

(** Membership that does not fail on an ambiguous key, as the
    specification words it: with two or more holders, [contains] returns
    true. *)
Definition contains_ignores_ambiguity (capabilities : capabilities_dict) (key : string) : Prop :=
  2 <= size (holders capabilities key) ->
  ContextCapabilities.__contains__ (ContextCapabilities.__init__ (Some capabilities)) key
  = Ok true.

(** The lookups of a related view as the specification words them, for
    any related sub-record: the view is built, its indexed get returns
    the declared-property value when the key is declared, else the
    runtime-property value, and fails with KeyNotFound when both lack the
    key; membership is true exactly when one of the two has the key. A
    sub-record without declared properties declares no key. *)
Definition related_lookup_as_specified (ctx : Payload.t) (key : string) : Prop :=
  exists view,
    CloudifyRelatedNode.__init__ ctx = Ok view /\
    let props : dict :=
      match Payload.related_node_properties (CloudifyRelatedNode._related view) with
      | Some props => props
      | None => ∅
      end in
    let runtime := CloudifyRelatedNode.runtime_properties view in
    CloudifyRelatedNode.__getitem__ view key
    = match props !! key with
      | Some v => Ok v
      | None =>
          match runtime !! key with
          | Some v => Ok v
          | None => Raise (KeyNotFound key)
          end
      end /\
    CloudifyRelatedNode.__contains__ view key
    = Ok (bool_decide (is_Some (props !! key) \/ is_Some (runtime !! key))).

(** A computation relates every state to the state it leaves behind. *)
Definition relates {B A : Type} (R : relation (CloudifyContext.State B))
    (m : CloudifyContext.M B A) : Prop :=
  forall s, R s (m s).2.

(** The later state has the payload, the two views built from it and the
    lifecycle flag of the earlier one. *)
Definition same_attributes {B : Type} (s s' : CloudifyContext.State B) : Prop :=
  CloudifyContext._context (CloudifyContext.self s')
  = CloudifyContext._context (CloudifyContext.self s) /\
  CloudifyContext._capabilities (CloudifyContext.self s')
  = CloudifyContext._capabilities (CloudifyContext.self s) /\
  CloudifyContext._related (CloudifyContext.self s')
  = CloudifyContext._related (CloudifyContext.self s) /\
  CloudifyContext._lifecycle_state (CloudifyContext.self s')
  = CloudifyContext._lifecycle_state (CloudifyContext.self s).

(** The computation fails with NoNodeInContext and leaves the state as it
    found it. *)
Definition raises_NoNodeInContext {B A : Type} (m : CloudifyContext.M B A)
    (s : CloudifyContext.State B) : Prop :=
  exists e, NoNodeInContext e /\ m s = (Raise e, s).

(** Without a node identifier the lifecycle flag is unset. *)
Definition flag_needs_node {B : Type} (s : CloudifyContext.State B) : Prop :=
  Payload.node_id (CloudifyContext._context (CloudifyContext.self s)) = None ->
  CloudifyContext._lifecycle_state (CloudifyContext.self s) = None.

(** The name of the logger of a context: the task name, or the generic
    plugin name. *)
Definition logger_name {B : Type} (s : CloudifyContext.State B) : string :=
  match Payload.task_name (CloudifyContext._context (CloudifyContext.self s)) with
  | Some tn => tn
  | None => "cloudify_plugin"
  end.

(** The handler that the wiring creates in a state. *)
Definition context_handler {B : Type} (s : CloudifyContext.State B) : logging.Handler :=
  logging.mk_handler (CloudifyContext.next_handler_id s)
                     logging.CloudifyPluginLoggingHandler (Some "%(message)s").

(** The later state has the storage, the record of the calls made to it
    and the cached node state of the earlier one. *)
Definition same_storage_view {B : Type} (s s' : CloudifyContext.State B) : Prop :=
  CloudifyContext.calls s' = CloudifyContext.calls s /\
  CloudifyContext.storage s' = CloudifyContext.storage s /\
  CloudifyContext._node_state (CloudifyContext.self s')
  = CloudifyContext._node_state (CloudifyContext.self s).

(** The later state has the loggers, the next handler identity and the
    logger reference of the earlier one. *)
Definition same_logging {B : Type} (s s' : CloudifyContext.State B) : Prop :=
  CloudifyContext.loggers s' = CloudifyContext.loggers s /\
  CloudifyContext.next_handler_id s' = CloudifyContext.next_handler_id s /\
  CloudifyContext._logger (CloudifyContext.self s')
  = CloudifyContext._logger (CloudifyContext.self s).

(** The calls that read or write the node state. *)
Definition touches_node_state (c : CloudifyContext.call) : bool :=
  match c with
  | CloudifyContext.CallRuntimeProperties
  | CloudifyContext.CallGetItem _
  | CloudifyContext.CallSetItem _ _
  | CloudifyContext.CallContains _
  | CloudifyContext.CallUpdate => true
  | _ => false
  end.

(** Whether a node state is cached. *)
Definition cached {B : Type} (s : CloudifyContext.State B) : bool :=
  bool_decide (is_Some (CloudifyContext._node_state (CloudifyContext.self s))).

(** A record of storage calls in which gets and updates take turns,
    beginning with a get or with an update as [expect_get] says. *)
Fixpoint alternates (expect_get : bool) (trace : list storage_call) : bool :=
  match trace with
  | [] => true
  | GetNodeState _ :: trace => expect_get && alternates false trace
  | UpdateNodeState _ :: trace => negb expect_get && alternates true trace
  end.

(** Whether a node state is cached after a record of storage calls: it is
    after a get, it is not after an update. *)
Definition cached_after (before : bool) (trace : list storage_call) : bool :=
  foldl (fun _ c => is_get_node_state c) before trace.

(** The lifecycle flag after a sequence of calls on a context with a node:
    the value of the last setter called, or the flag as it was. *)
Definition last_flag (before : option string) (cs : list CloudifyContext.call)
    : option string :=
  foldl (fun flag c =>
           match c with
           | CloudifyContext.CallSetStarted => Some CloudifyContext.STARTED
           | CloudifyContext.CallSetStopped => Some CloudifyContext.STOPPED
           | _ => flag
           end) before cs.

(** The elements at the odd positions of a list: the second, the fourth
    and so on. *)
Fixpoint every_second {A : Type} (l : list A) : list A :=
  match l with
  | _ :: x :: l => x :: every_second l
  | _ => []
  end.

(** A new context object for the same payload in the world that a state
    describes: what a second task with this payload starts from. *)
Definition next_context {B : Type} (o : CloudifyContext.t) (s : CloudifyContext.State B)
    : CloudifyContext.State B :=
  CloudifyContext.mkState o (CloudifyContext.storage s) (CloudifyContext.calls s)
                          (CloudifyContext.loggers s) (CloudifyContext.next_handler_id s).

(** ** Concrete payloads, storages and loggers *)
Module Examples.

Definition two_dependencies : capabilities_dict :=
  {[ "vm1" := {[ "ip" := VStr "10.0.0.1" ]}; "vm2" := {[ "port" := VInt 80 ]} ]}.

Definition ambiguous : capabilities_dict :=
  {[ "a" := {[ "x" := VInt 1 ]}; "b" := {[ "x" := VInt 2 ]} ]}.

(** A storage held in memory: the persisted runtime properties of each
    node, an unknown node having none. *)
#[global] Instance memory : Manager (gmap string dict) := {
  stored_node_state b n :=
    NodeState.mk n (match b !! n with Some p => p | None => ∅ end);
  store_node_state b node_state :=
    <[NodeState.id node_state := NodeState.runtime_properties node_state]> b
}.

(** [{node_id: "db1", node_properties: {"port": 5432}}] *)
Definition db1 : Payload.t :=
  Payload.mk (Some "db1") None (Some {[ "port" := VInt 5432 ]}) None None
             None None None None None None None None None.

(** A payload without a node identifier. *)
Definition no_node : Payload.t :=
  Payload.mk None None (Some {[ "port" := VInt 5432 ]}) None None
             None None None None None None None None None.

(** A relationship invocation: [db1] is related to [vm1]. *)
Definition db1_on_vm1 : Payload.t :=
  Payload.mk (Some "db1") None (Some {[ "port" := VInt 5432 ]})
             (Some two_dependencies)
             (Some (Payload.mk_related (Some "vm1") (Some {[ "image" := VStr "ubuntu" ]})))
             None None None None None None None None None.

(** A relationship invocation whose related sub-record has its node id
    and no declared properties: [related = {node_id: "vm1"}]. *)
Definition related_without_properties : Payload.t :=
  Payload.mk (Some "db1") None None (Some two_dependencies)
             (Some (Payload.mk_related (Some "vm1") None))
             None None None None None None None None None.

(** A relationship invocation whose related sub-record has no node id. *)
Definition related_without_id : Payload.t :=
  Payload.mk (Some "db1") None None (Some two_dependencies)
             (Some (Payload.mk_related None None))
             None None None None None None None None None.

(** The task [tasks.start] on [db1]. *)
Definition db1_start : Payload.t :=
  Payload.mk (Some "db1") None (Some {[ "port" := VInt 5432 ]}) None None
             None None None None None (Some "tasks.start") None None None.

(** The context object of a payload without a related sub-record. *)
Definition context_of (ctx : Payload.t) : CloudifyContext.t :=
  CloudifyContext.mk ctx
    (ContextCapabilities.mk
       (match Payload.capabilities ctx with Some c => c | None => ∅ end))
    None None None None.

(** The state at the start of a task: an empty storage, no call made, and
    the given loggers. *)
Definition fresh_state (ctx : Payload.t) (registry : gmap string logging.Logger)
    (fresh : nat) : CloudifyContext.State (gmap string dict) :=
  CloudifyContext.start (context_of ctx) ∅ [] registry fresh.

(** Two handlers that some other code attached to the logger
    [tasks.start] before the task ran. *)
Definition console : logging.Handler := logging.mk_handler 0 logging.OtherHandler None.
Definition logfile : logging.Handler := logging.mk_handler 1 logging.OtherHandler None.

Definition two_handlers : gmap string logging.Logger :=
  {[ "tasks.start" := logging.mk_logger logging.NOTSET [console; logfile] true ]}.

End Examples.

(** * Properties *)

(** ** ContextCapabilities *)
Section capabilities.

Variable capabilities : capabilities_dict.
Variable key : string.

Let ambiguity : exn := RuntimeError (MsgCapabilityAmbiguity key capabilities).

Local Abbreviation loop := (ContextCapabilities.find_item_loop capabilities key).

(** Maps without the key leave the loop's variables as they are. *)
Lemma find_item_loop_miss (vs : list dict) (found : bool) (v : value) :
  Forall (fun caps => caps !! key = None) vs ->
  loop vs found v = Ok (found, v).
Proof.
  induction 1 as [|caps vs Hmiss _ IH]; simpl; [done|].
  by rewrite Hmiss.
Qed.

(** Once a map had the key, any later map with the key is an ambiguity. *)
Lemma find_item_loop_second_hit (vs : list dict) (v : value) :
  Exists (fun caps => is_Some (caps !! key)) vs ->
  loop vs true v = Raise ambiguity.
Proof.
  induction 1 as [caps vs [w Hw]|caps vs _ IH]; simpl.
  - by rewrite Hw.
  - by destruct (caps !! key).
Qed.

Lemma find_item_loop_two_hits (before after : list dict) (caps : dict)
    (found : bool) (v : value) :
  is_Some (caps !! key) ->
  Exists (fun caps' => is_Some (caps' !! key)) after ->
  loop (before ++ caps :: after) found v = Raise ambiguity.
Proof.
  intros [w Hw] Hafter. revert found v.
  induction before as [|c before IH]; intros found v; simpl.
  - rewrite Hw. destruct found; [done|].
    by apply find_item_loop_second_hit.
  - destruct (c !! key) as [u|]; [|by apply IH].
    destruct found; [done|]. by apply IH.
Qed.

Lemma find_item_loop_one_hit (before after : list dict) (caps : dict)
    (v0 w : value) :
  Forall (fun caps' => caps' !! key = None) before ->
  caps !! key = Some w ->
  Forall (fun caps' => caps' !! key = None) after ->
  loop (before ++ caps :: after) false v0 = Ok (true, w).
Proof.
  intros Hbefore Hw Hafter.
  induction Hbefore as [|c before Hc _ IH]; simpl.
  - rewrite Hw. by apply find_item_loop_miss.
  - by rewrite Hc.
Qed.

(** The loop gives the same result in whatever order the dictionary hands
    out its values. *)
Lemma find_item_loop_order (vs vs' : list dict) (found : bool) (v : value) :
  vs ≡ₚ vs' -> loop vs found v = loop vs' found v.
Proof.
  intros Hperm. revert found v.
  induction Hperm as [|caps vs vs' _ IH|c1 c2 vs|vs1 vs2 vs3 _ IH12 _ IH23];
    intros found v; simpl.
  - done.
  - destruct (caps !! key); [destruct found|]; auto.
  - destruct (c1 !! key), (c2 !! key), found; auto.
  - by rewrite IH12.
Qed.

Let self : ContextCapabilities.t := ContextCapabilities.__init__ (Some capabilities).

(** Two different dependency nodes whose maps both have the key. *)
Lemma find_item_ambiguous (n1 n2 : string) (caps1 caps2 : dict) :
  n1 <> n2 ->
  capabilities !! n1 = Some caps1 -> is_Some (caps1 !! key) ->
  capabilities !! n2 = Some caps2 -> is_Some (caps2 !! key) ->
  ContextCapabilities._find_item self key = Raise ambiguity.
Proof.
  intros Hne H1 Hk1 H2 Hk2.
  unfold ContextCapabilities._find_item, ContextCapabilities.values. simpl.
  apply elem_of_map_to_list in H1, H2.
  apply list_elem_of_split in H1 as (l1 & l2 & Hsplit).
  rewrite Hsplit in H2 |- *.
  apply elem_of_app in H2 as [Hin|Hin].
  - apply list_elem_of_split in Hin as (a & b & ->).
    rewrite <- app_assoc, fmap_app. simpl.
    apply find_item_loop_two_hits; [done|].
    apply Exists_exists. exists caps1. split; [|done].
    rewrite fmap_app. simpl. set_solver.
  - apply elem_of_cons in Hin as [Heq|Hin]; [congruence|].
    rewrite fmap_app. simpl.
    apply find_item_loop_two_hits; [done|].
    apply Exists_exists. exists caps2. split; [|done].
    apply list_elem_of_fmap. by exists (n2, caps2).
Qed.

(** One dependency node whose map has the key, and no other. *)
Lemma find_item_unique (n : string) (caps : dict) (w : value) :
  capabilities !! n = Some caps -> caps !! key = Some w ->
  (forall n' caps', n' <> n -> capabilities !! n' = Some caps' -> caps' !! key = None) ->
  ContextCapabilities._find_item self key = Ok (true, w).
Proof.
  intros Hn Hw Hothers.
  unfold ContextCapabilities._find_item, ContextCapabilities.values. simpl.
  pose proof (NoDup_fst_map_to_list capabilities) as Hnodup.
  assert (forall p, p ∈ map_to_list capabilities -> p.1 <> n -> p.2 !! key = None)
    as Hmiss.
  { intros [n' caps'] Hin Hne. apply elem_of_map_to_list in Hin. eauto. }
  apply elem_of_map_to_list in Hn.
  apply list_elem_of_split in Hn as (l1 & l2 & Hsplit).
  rewrite Hsplit in Hnodup, Hmiss |- *.
  rewrite fmap_app in Hnodup. simpl in Hnodup.
  apply NoDup_app in Hnodup as (_ & Hl1 & Hl2).
  apply NoDup_cons in Hl2 as [Hl2 _].
  rewrite fmap_app. simpl.
  apply find_item_loop_one_hit; [|done|].
  - apply Forall_fmap, Forall_forall. intros p Hp. simpl.
    apply Hmiss; [set_solver|]. intros Heq.
    apply (Hl1 p.1); [by apply list_elem_of_fmap_2|]. rewrite Heq. set_solver.
  - apply Forall_fmap, Forall_forall. intros p Hp. simpl.
    apply Hmiss; [set_solver|]. intros Heq.
    apply Hl2. rewrite <- Heq. by apply list_elem_of_fmap_2.
Qed.

(** No dependency node whose map has the key. *)
Lemma find_item_absent :
  (forall n caps, capabilities !! n = Some caps -> caps !! key = None) ->
  ContextCapabilities._find_item self key = Ok (false, VNone).
Proof.
  intros Hnone.
  unfold ContextCapabilities._find_item, ContextCapabilities.values. simpl.
  apply find_item_loop_miss, Forall_fmap, Forall_forall.
  intros [n caps] Hin. apply elem_of_map_to_list in Hin. simpl. eauto.
Qed.

End capabilities.

Lemma holders_lookup (capabilities : capabilities_dict) (key n : string) (caps : dict) :
  holders capabilities key !! n = Some caps <->
  capabilities !! n = Some caps /\ is_Some (caps !! key).
Proof. unfold holders. by rewrite map_lookup_filter_Some. Qed.

(** A map of size two or more has two different keys. *)
Lemma holders_two (capabilities : capabilities_dict) (key : string) :
  2 <= size (holders capabilities key) ->
  exists n1 n2 caps1 caps2,
    n1 <> n2 /\
    holders capabilities key !! n1 = Some caps1 /\
    holders capabilities key !! n2 = Some caps2.
Proof.
  intros Hsize.
  destruct (map_choose_or_empty (holders capabilities key)) as [(n1 & caps1 & H1)|Hempty].
  - pose proof (map_size_delete_Some n1 (holders capabilities key) (mk_is_Some _ _ H1)) as Hdel.
    destruct (map_choose_or_empty (delete n1 (holders capabilities key)))
      as [(n2 & caps2 & H2)|Hempty].
    + apply lookup_delete_Some in H2 as [Hne H2]. by exists n1, n2, caps1, caps2.
    + rewrite Hempty, map_size_empty in Hdel. lia.
  - rewrite Hempty, map_size_empty in Hsize. lia.
Qed.

(** C1, as the code has it: for every capabilities mapping and every key
    that appears in two or more dependency runtime-properties maps,
    capability get fails with CapabilityAmbiguous, the failure carrying the
    offending key and the whole capabilities mapping, and capability
    contains fails with the very same CapabilityAmbiguous: [__contains__]
    runs the same [_find_item] and lets its failure through. *)
Theorem capability_ambiguous (capabilities : capabilities_dict) (key : string) :
  2 <= size (holders capabilities key) ->
  let self := ContextCapabilities.__init__ (Some capabilities) in
  ContextCapabilities.__getitem__ self key = Raise (CapabilityAmbiguous key capabilities) /\
  ContextCapabilities.__contains__ self key = Raise (CapabilityAmbiguous key capabilities).
Proof.
  intros Hsize self.
  destruct (holders_two _ _ Hsize) as (n1 & n2 & caps1 & caps2 & Hne & H1 & H2).
  apply holders_lookup in H1 as [H1 Hk1], H2 as [H2 Hk2].
  pose proof (find_item_ambiguous capabilities key n1 n2 caps1 caps2 Hne H1 Hk1 H2 Hk2)
    as Hfind.
  subst self.
  unfold ContextCapabilities.__getitem__, ContextCapabilities.__contains__.
  by rewrite Hfind.
Qed.

(** With [{"a": {"x": 1}, "b": {"x": 2}}] the key ["x"] has two holders and
    [get] fails with the ambiguity, as does [contains]. *)
Lemma capability_ambiguous_witness :
  2 <= size (holders Examples.ambiguous "x") /\
  ContextCapabilities.__getitem__ (ContextCapabilities.mk Examples.ambiguous) "x"
  = Raise (CapabilityAmbiguous "x" Examples.ambiguous) /\
  ContextCapabilities.__contains__ (ContextCapabilities.mk Examples.ambiguous) "x"
  = Raise (CapabilityAmbiguous "x" Examples.ambiguous).
Proof.
  split; [vm_compute; lia|].
  apply (capability_ambiguous Examples.ambiguous "x"). vm_compute. lia.
Defined.

(** C1, as the specification words it, fails: with
    [{"a": {"x": 1}, "b": {"x": 2}}], ["x" in capabilities] does not return
    true, it raises. *)
Lemma capability_contains_ambiguous_raises :
  ~ contains_ignores_ambiguity Examples.ambiguous "x".
Proof.
  unfold contains_ignores_ambiguity. intros Hspec.
  assert (2 <= size (holders Examples.ambiguous "x")) as Hsize by (vm_compute; lia).
  specialize (Hspec Hsize). vm_compute in Hspec. discriminate Hspec.
Qed.

(** C2: for every capabilities mapping and every key: when exactly one
    dependency runtime-properties map has the key, get returns that map's
    value for the key and contains returns true; when none has it, get
    fails with CapabilityNotFound and contains returns false. *)
Theorem capability_resolution (capabilities : capabilities_dict) (key : string) :
  let self := ContextCapabilities.__init__ (Some capabilities) in
  (forall n caps,
      holders capabilities key = {[ n := caps ]} ->
      exists v, caps !! key = Some v /\
                ContextCapabilities.__getitem__ self key = Ok v /\
                ContextCapabilities.__contains__ self key = Ok true) /\
  (holders capabilities key = ∅ ->
   ContextCapabilities.__getitem__ self key = Raise (CapabilityNotFound key capabilities) /\
   ContextCapabilities.__contains__ self key = Ok false).
Proof.
  intros self. split.
  - intros n caps Hone.
    assert (holders capabilities key !! n = Some caps) as Hn
      by (rewrite Hone; apply lookup_singleton_eq).
    apply holders_lookup in Hn as [Hn [v Hv]].
    exists v. split; [done|].
    assert (ContextCapabilities._find_item self key = Ok (true, v)) as Hfind.
    { apply (find_item_unique capabilities key n caps v Hn Hv).
      intros n' caps' Hne Hn'.
      destruct (caps' !! key) as [w|] eqn:Hw; [|done].
      assert (holders capabilities key !! n' = Some caps') as Hin
        by (apply holders_lookup; eauto).
      rewrite Hone, lookup_singleton_ne in Hin; [discriminate|done]. }
    unfold ContextCapabilities.__getitem__, ContextCapabilities.__contains__.
    by rewrite Hfind.
  - intros Hnone.
    assert (ContextCapabilities._find_item self key = Ok (false, VNone)) as Hfind.
    { apply find_item_absent. intros n caps Hn.
      destruct (caps !! key) as [w|] eqn:Hw; [|done].
      assert (holders capabilities key !! n = Some caps) as Hin
        by (apply holders_lookup; eauto).
      by rewrite Hnone in Hin. }
    unfold ContextCapabilities.__getitem__, ContextCapabilities.__contains__.
    by rewrite Hfind.
Qed.

(** With [{"vm1": {"ip": "10.0.0.1"}, "vm2": {"port": 80}}], ["ip"] has the
    one holder [vm1] and ["missing"] has none. *)
Lemma capability_resolution_witness :
  let self := ContextCapabilities.mk Examples.two_dependencies in
  (ContextCapabilities.__getitem__ self "ip" = Ok (VStr "10.0.0.1") /\
   ContextCapabilities.__contains__ self "ip" = Ok true) /\
  (ContextCapabilities.__getitem__ self "missing"
   = Raise (CapabilityNotFound "missing" Examples.two_dependencies) /\
   ContextCapabilities.__contains__ self "missing" = Ok false).
Proof.
  intros self.
  destruct (capability_resolution Examples.two_dependencies "ip") as [Hone _].
  destruct (capability_resolution Examples.two_dependencies "missing") as [_ Hnone].
  split.
  - destruct (Hone "vm1" {[ "ip" := VStr "10.0.0.1" ]}) as (v & Hv & Hget & Hin);
      [vm_compute; reflexivity|].
    vm_compute in Hv. injection Hv as <-. by split.
  - apply Hnone. vm_compute. reflexivity.
Defined.

(** ** CloudifyContext *)

(** Unfolds a method of [CloudifyContext] down to a function on states. *)
Ltac unfold_methods :=
  unfold CloudifyContext.step, CloudifyContext.after, CloudifyContext.outcome,
    CloudifyContext.logger, CloudifyContext._init_cloudify_logger,
    CloudifyContext.update, CloudifyContext.__contains__,
    CloudifyContext.__setitem__, CloudifyContext.__getitem__,
    CloudifyContext.runtime_properties, CloudifyContext.the_node_state,
    CloudifyContext._get_node_state_if_needed,
    CloudifyContext.set_started, CloudifyContext.set_stopped,
    CloudifyContext._verify_node_in_context,
    CloudifyContext.is_set_started, CloudifyContext.is_set_stopped,
    CloudifyContext.related, CloudifyContext.capabilities,
    CloudifyContext.operation, CloudifyContext.plugin,
    CloudifyContext.task_target, CloudifyContext.task_name,
    CloudifyContext.task_id, CloudifyContext.workflow_id,
    CloudifyContext.execution_id, CloudifyContext.deployment_id,
    CloudifyContext.blueprint_id, CloudifyContext.properties,
    CloudifyContext.node_name, CloudifyContext.node_id in *.

Ltac unfold_monad :=
  unfold mbind, mret, CloudifyContext.M_bind, CloudifyContext.M_ret,
    CloudifyContext.bind, CloudifyContext.ret, CloudifyContext.read,
    CloudifyContext.raise, CloudifyContext.assign, CloudifyContext.lift,
    CloudifyContext.get_node_state, CloudifyContext.update_node_state,
    CloudifyContext.getLogger, CloudifyContext.on_logger,
    CloudifyContext.new_CloudifyPluginLoggingHandler in *.

Ltac run_method := unfold_methods; unfold_monad; cbn.

Section context.

Context {B : Type} `{!Manager B}.
Import CloudifyContext.

Implicit Types (s : State B) (key : string) (v : value).

(** *** Fetch-if-needed *)

Lemma fetch_without_node s :
  Payload.node_id (_context (self s)) = None ->
  _get_node_state_if_needed s = (Raise (RuntimeError MsgNoNodeState), s).
Proof. intros Hnode. run_method. by rewrite Hnode. Qed.

Lemma fetch_cached s (n : string) (node_state : NodeState.t) :
  Payload.node_id (_context (self s)) = Some n ->
  _node_state (self s) = Some node_state ->
  _get_node_state_if_needed s = (Ok tt, s).
Proof. intros Hnode Hcache. run_method. by rewrite Hnode, Hcache. Qed.

Lemma fetch_first s (n : string) :
  Payload.node_id (_context (self s)) = Some n ->
  _node_state (self s) = None ->
  _get_node_state_if_needed s
  = (Ok tt,
     mkState (with_node_state (Some (stored_node_state (storage s) n)) (self s))
             (storage s) (calls s ++ [GetNodeState n]) (loggers s) (next_handler_id s)).
Proof. intros Hnode Hcache. run_method. by rewrite Hnode, Hcache. Qed.

(** *** Without a node identifier *)

Lemma set_started_without_node s :
  Payload.node_id (_context (self s)) = None ->
  set_started s = (Raise (RuntimeError MsgRequiresNode), s).
Proof. intros Hnode. run_method. by rewrite Hnode. Qed.

Lemma set_stopped_without_node s :
  Payload.node_id (_context (self s)) = None ->
  set_stopped s = (Raise (RuntimeError MsgRequiresNode), s).
Proof. intros Hnode. run_method. by rewrite Hnode. Qed.

Lemma runtime_properties_without_node s :
  Payload.node_id (_context (self s)) = None ->
  runtime_properties s = (Raise (RuntimeError MsgNoNodeState), s).
Proof. intros Hnode. run_method. by rewrite Hnode. Qed.

Lemma setitem_without_node s key v :
  Payload.node_id (_context (self s)) = None ->
  __setitem__ key v s = (Raise (RuntimeError MsgNoNodeState), s).
Proof. intros Hnode. run_method. by rewrite Hnode. Qed.

(** *** What every method leaves alone *)

#[local] Instance same_attributes_preorder : PreOrder (@same_attributes B).
Proof.
  split.
  - by intros s.
  - intros s1 s2 s3 (? & ? & ? & ?) (? & ? & ? & ?).
    repeat split; congruence.
Qed.

Section relates.

Variable R : relation (State B).
Context `{!PreOrder R}.

Lemma relates_ret {A : Type} (a : A) : relates R (mret a : M B A).
Proof. intros s. reflexivity. Qed.

Lemma relates_raise {A : Type} (e : exn) : relates R (raise e : M B A).
Proof. intros s. reflexivity. Qed.

Lemma relates_lift {A : Type} (r : result A) : relates R (lift r : M B A).
Proof. intros s. reflexivity. Qed.

Lemma relates_read : relates R (read : M B t).
Proof. intros s. reflexivity. Qed.

Lemma relates_bind {A C : Type} (m : M B A) (k : A -> M B C) :
  relates R m -> (forall a, relates R (k a)) -> relates R (m ≫= k).
Proof.
  intros Hm Hk s. unfold mbind, M_bind, bind.
  specialize (Hm s). destruct (m s) as [[a|e] s']; simpl in *; [|done].
  by transitivity s'; [|apply Hk].
Qed.

End relates.

Ltac relates_step :=
  first
    [ apply relates_bind; [apply _| |intros ?]
    | solve [apply relates_ret; apply _]
    | solve [apply relates_raise; apply _]
    | solve [apply relates_lift; apply _]
    | solve [apply relates_read; apply _]
    | match goal with
      | |- relates _ (match ?x with _ => _ end) => destruct x
      end
    | by (intros ?; repeat split) ].

Lemma call_same_attributes (c : call) :
  c <> CallSetStarted -> c <> CallSetStopped ->
  forall s, same_attributes s (step s c).
Proof.
  intros Hstarted Hstopped.
  destruct c; try done; unfold step, after;
    match goal with |- forall s, _ _ (?m s).2 => change (relates same_attributes m) end.
  all: unfold_methods; cbv zeta; repeat relates_step.
Qed.

Lemma run_snoc (cs : list call) (c : call) s :
  run (cs ++ [c]) s = step (run cs s) c.
Proof. unfold run. by rewrite foldl_app. Qed.

(** *** The cache of the node state *)

Lemma runtime_properties_cached s (n : string) (node_state : NodeState.t) :
  Payload.node_id (_context (self s)) = Some n ->
  _node_state (self s) = Some node_state ->
  runtime_properties s = (Ok (NodeState.runtime_properties node_state), s).
Proof. intros Hnode Hcache. run_method. by rewrite Hnode, Hcache; cbn; rewrite Hcache. Qed.

Lemma runtime_properties_first s (n : string) :
  Payload.node_id (_context (self s)) = Some n ->
  _node_state (self s) = None ->
  runtime_properties s
  = (Ok (NodeState.runtime_properties (stored_node_state (storage s) n)),
     mkState (with_node_state (Some (stored_node_state (storage s) n)) (self s))
             (storage s) (calls s ++ [GetNodeState n]) (loggers s) (next_handler_id s)).
Proof. intros Hnode Hcache. run_method. by rewrite Hnode, Hcache. Qed.

(** Accesses with a cached node state change nothing. *)
Lemma accesses_cached (k : nat) s (n : string) (node_state : NodeState.t) :
  Payload.node_id (_context (self s)) = Some n ->
  _node_state (self s) = Some node_state ->
  run (replicate k CallRuntimeProperties) s = s.
Proof.
  intros Hnode Hcache. induction k as [|k IH]; [done|].
  simpl. unfold after.
  by rewrite (runtime_properties_cached s n node_state).
Qed.

(** One or more accesses that start without a cached node state. *)
Lemma accesses_first (k : nat) s (n : string) :
  Payload.node_id (_context (self s)) = Some n ->
  _node_state (self s) = None ->
  run (replicate (S k) CallRuntimeProperties) s
  = mkState (with_node_state (Some (stored_node_state (storage s) n)) (self s))
            (storage s) (calls s ++ [GetNodeState n]) (loggers s) (next_handler_id s).
Proof.
  intros Hnode Hcache. simpl. unfold after.
  rewrite (runtime_properties_first s n Hnode Hcache). simpl.
  by apply (accesses_cached k _ n (stored_node_state (storage s) n)).
Qed.

Lemma calls_since_app s s' (new : list storage_call) :
  calls s' = calls s ++ new -> calls_since s s' = new.
Proof. intros Hcalls. unfold calls_since. by rewrite Hcalls, drop_app_length. Qed.

Lemma update_cached s (node_state : NodeState.t) :
  _node_state (self s) = Some node_state ->
  update s
  = (Ok tt,
     mkState (with_node_state None (self s))
             (store_node_state (storage s) node_state)
             (calls s ++ [UpdateNodeState node_state])
             (loggers s) (next_handler_id s)).
Proof. intros Hcache. run_method. by rewrite Hcache. Qed.

Lemma update_not_cached s :
  _node_state (self s) = None -> update s = (Ok tt, s).
Proof. intros Hcache. run_method. by rewrite Hcache. Qed.

(** C4: for every context with a node identifier, any number (one or
    more) of [runtime_properties] accesses within one load-cycle, which
    begins with no NodeState cached, make exactly one storage call, a
    [get_node_state] for the node: the first access fetches and returns
    the fetched mapping, and an access with a NodeState cached returns the
    cached mapping and changes nothing. After a flush through [update],
    the following accesses again make exactly one [get_node_state] call. *)
Theorem runtime_properties_fetches_once s (n : string) (k : nat) :
  Payload.node_id (_context (self s)) = Some n ->
  (_node_state (self s) = None ->
   calls_since s (run (replicate (S k) CallRuntimeProperties) s) = [GetNodeState n] /\
   outcome runtime_properties s
   = Ok (NodeState.runtime_properties (stored_node_state (storage s) n)) /\
   _node_state (self (after runtime_properties s))
   = Some (stored_node_state (storage s) n)) /\
  (forall node_state,
      _node_state (self s) = Some node_state ->
      runtime_properties s = (Ok (NodeState.runtime_properties node_state), s)) /\
  (let flushed := after update s in
   calls_since flushed (run (replicate (S k) CallRuntimeProperties) flushed)
   = [GetNodeState n]).
Proof.
  intros Hnode. split; [|split].
  - intros Hcache. unfold outcome, after.
    rewrite (accesses_first k s n Hnode Hcache),
      (runtime_properties_first s n Hnode Hcache).
    split; [by apply calls_since_app|done].
  - intros node_state Hcache. by apply (runtime_properties_cached s n).
  - intros flushed.
    assert (Payload.node_id (_context (self flushed)) = Some n
            /\ _node_state (self flushed) = None) as [Hnode' Hcache'].
    { subst flushed. unfold after.
      destruct (_node_state (self s)) as [node_state|] eqn:Hcache.
      - by rewrite (update_cached s node_state Hcache).
      - by rewrite (update_not_cached s Hcache). }
    rewrite (accesses_first k flushed n Hnode' Hcache').
    by apply calls_since_app.
Qed.

(** C5: for every context, [update] with a NodeState cached calls
    [update_node_state] exactly once, with that NodeState, and then
    discards the cache; [update] with no NodeState cached makes no storage
    call and leaves the whole state as it is. *)
Theorem update_flushes_once s :
  (forall node_state,
      _node_state (self s) = Some node_state ->
      outcome update s = Ok tt /\
      calls_since s (after update s) = [UpdateNodeState node_state] /\
      storage (after update s) = store_node_state (storage s) node_state /\
      self (after update s) = with_node_state None (self s) /\
      _node_state (self (after update s)) = None) /\
  (_node_state (self s) = None -> update s = (Ok tt, s)).
Proof.
  split.
  - intros node_state Hcache. unfold outcome, after.
    rewrite (update_cached s node_state Hcache). simpl.
    repeat split. by apply calls_since_app.
  - apply update_not_cached.
Qed.

(** C7: for every context whose payload has no node identifier,
    [set_started], [set_stopped], [runtime_properties], fetch-if-needed
    and the indexed set fail with NoNodeInContext, and the state after the
    failing call, lifecycle flag and node-state cache included, is the
    state before it. *)
Theorem no_node_in_context s key v :
  Payload.node_id (_context (self s)) = None ->
  raises_NoNodeInContext set_started s /\
  raises_NoNodeInContext set_stopped s /\
  raises_NoNodeInContext runtime_properties s /\
  raises_NoNodeInContext _get_node_state_if_needed s /\
  raises_NoNodeInContext (__setitem__ key v) s.
Proof.
  intros Hnode. unfold raises_NoNodeInContext, NoNodeInContext.
  repeat split.
  1, 2: exists (RuntimeError MsgRequiresNode).
  3, 4, 5: exists (RuntimeError MsgNoNodeState).
  all: split; [by auto|].
  - by apply set_started_without_node.
  - by apply set_stopped_without_node.
  - by apply runtime_properties_without_node.
  - by apply fetch_without_node.
  - by apply setitem_without_node.
Qed.

(** *** Indexed access *)

(** The NodeState that fetch-if-needed leaves in the cache. *)
Lemma fetch_loads s (n : string) :
  Payload.node_id (_context (self s)) = Some n ->
  let node_state :=
    match _node_state (self s) with
    | Some cached => cached
    | None => stored_node_state (storage s) n
    end in
  let s' := after _get_node_state_if_needed s in
  _get_node_state_if_needed s = (Ok tt, s') /\
  self s' = with_node_state (Some node_state) (self s) /\
  storage s' = storage s /\
  calls_since s s' = match _node_state (self s) with
                     | Some _ => []
                     | None => [GetNodeState n]
                     end.
Proof.
  intros Hnode. unfold after.
  destruct (_node_state (self s)) as [cached|] eqn:Hcache; simpl.
  - rewrite (fetch_cached s n cached Hnode Hcache). simpl.
    repeat split.
    + destruct s as [[] ? ? ? ?]. simpl in *. by rewrite Hcache.
    + apply calls_since_app. by rewrite app_nil_r.
  - rewrite (fetch_first s n Hnode Hcache). simpl.
    repeat split. by apply calls_since_app.
Qed.

Lemma in_properties_false (props : option dict) key :
  (forall p, props = Some p -> p !! key = None) ->
  in_properties props key = false.
Proof.
  intros Hmiss. destruct props as [p|]; [|done]. simpl.
  unfold has_key. rewrite (Hmiss p eq_refl).
  apply bool_decide_eq_false. by intros [? ?].
Qed.

(** C3: for every context and every key, the indexed get returns the
    declared-property value whenever the key is among the declared
    properties, with the state, storage calls included, untouched. When
    the key is not declared, the get performs fetch-if-needed: without a
    node identifier that fails with NoNodeInContext; with one, the key is
    resolved from the NodeState then in the cache, and a key that this
    NodeState lacks too fails with KeyNotFound. The membership check
    follows the same order and fetches only when the declared properties
    miss. *)
Theorem combined_lookup s key :
  let props := Payload.node_properties (_context (self s)) in
  (forall p v,
      props = Some p -> p !! key = Some v ->
      __getitem__ key s = (Ok v, s) /\ __contains__ key s = (Ok true, s)) /\
  ((forall p, props = Some p -> p !! key = None) ->
   (Payload.node_id (_context (self s)) = None ->
    raises_NoNodeInContext (__getitem__ key) s /\
    raises_NoNodeInContext (__contains__ key) s) /\
   (forall n,
       Payload.node_id (_context (self s)) = Some n ->
       let node_state :=
         match _node_state (self s) with
         | Some cached => cached
         | None => stored_node_state (storage s) n
         end in
       let s' := after _get_node_state_if_needed s in
       _node_state (self s') = Some node_state /\
       __getitem__ key s
       = (match NodeState.runtime_properties node_state !! key with
          | Some v => Ok v
          | None => Raise (KeyNotFound key)
          end, s') /\
       __contains__ key s
       = (Ok (bool_decide (is_Some (NodeState.runtime_properties node_state !! key))),
          s'))).
Proof.
  intros props. split.
  - intros p v Hprops Hkey. subst props.
    assert (has_key p key = true) as Hhas
      by (apply bool_decide_eq_true; rewrite Hkey; eauto).
    split; run_method; rewrite Hprops; cbn; rewrite Hhas; [|done].
    unfold subscript. by rewrite Hkey.
  - intros Hmiss. apply in_properties_false in Hmiss. subst props. split.
    + intros Hnode. unfold raises_NoNodeInContext, NoNodeInContext.
      split; exists (RuntimeError MsgNoNodeState); (split; [by auto|]).
      all: run_method; rewrite Hmiss; cbn; by rewrite Hnode.
    + intros n Hnode node_state s'.
      destruct (fetch_loads s n Hnode) as (Hfetch & Hself & _ & _).
      fold node_state s' in Hfetch, Hself.
      split; [by rewrite Hself|].
      unfold __getitem__, __contains__, the_node_state, properties.
      unfold_monad. cbn. rewrite Hmiss, Hfetch, Hself. by cbn.
Qed.

(** C6: for every context, key and value, the indexed set leaves the
    payload, and so the declared properties, as it was, whether or not
    the key is declared, and persists nothing: the storage is unchanged
    and no [update_node_state] call is made. With a node identifier the
    call returns and changes one attribute of the object, the cache, which
    then holds the NodeState that fetch-if-needed gave, with the value
    under the key. *)
Theorem setitem_writes_node_state_only s key v :
  let s' := after (__setitem__ key v) s in
  (_context (self s') = _context (self s) /\
   outcome properties s' = outcome properties s /\
   storage s' = storage s /\
   Forall (fun c => is_update_node_state c = false) (calls_since s s')) /\
  (forall n,
      Payload.node_id (_context (self s)) = Some n ->
      let node_state :=
        match _node_state (self s) with
        | Some cached => cached
        | None => stored_node_state (storage s) n
        end in
      outcome (__setitem__ key v) s = Ok tt /\
      self s' = with_node_state (Some (NodeState.__setitem__ node_state key v)) (self s) /\
      _node_state (self s') = Some (NodeState.__setitem__ node_state key v) /\
      NodeState.runtime_properties (NodeState.__setitem__ node_state key v) !! key
      = Some v /\
      calls_since s s' = calls_since s (after _get_node_state_if_needed s)).
Proof.
  intros s'.
  destruct (Payload.node_id (_context (self s))) as [n|] eqn:Hnode.
  - destruct (fetch_loads s n Hnode) as (Hfetch & Hself & Hstorage & Hcalls).
    set (node_state := match _node_state (self s) with
                       | Some cached => cached
                       | None => stored_node_state (storage s) n
                       end) in *.
    set (s1 := after _get_node_state_if_needed s) in *.
    assert (__setitem__ key v s
            = (Ok tt,
               mkState (with_node_state (Some (NodeState.__setitem__ node_state key v))
                                        (self s1))
                       (storage s1) (calls s1) (loggers s1) (next_handler_id s1)))
      as Hset.
    { unfold __setitem__, the_node_state. unfold_monad. cbn.
      rewrite Hfetch, Hself. cbn. by rewrite Hself. }
    subst s'. unfold outcome, after in *. rewrite Hset. cbn.
    split.
    + rewrite Hself. cbn. repeat split; [done|].
      unfold calls_since in *. cbn. rewrite Hcalls.
      destruct (_node_state (self s)); repeat constructor.
    + intros ? [= <-]. repeat split.
      * by rewrite Hself.
      * cbn. apply lookup_insert_eq.
  - subst s'. unfold after. rewrite (setitem_without_node s key v Hnode).
    simpl. split; [|done].
    repeat split. unfold calls_since. rewrite drop_all. constructor.
Qed.

(** *** The lifecycle flag *)

Lemma set_started_with_node s (n : string) :
  Payload.node_id (_context (self s)) = Some n ->
  set_started s
  = (Ok tt, mkState (with_lifecycle_state (Some STARTED) (self s))
                    (storage s) (calls s) (loggers s) (next_handler_id s)).
Proof. intros Hnode. run_method. by rewrite Hnode. Qed.

Lemma set_stopped_with_node s (n : string) :
  Payload.node_id (_context (self s)) = Some n ->
  set_stopped s
  = (Ok tt, mkState (with_lifecycle_state (Some STOPPED) (self s))
                    (storage s) (calls s) (loggers s) (next_handler_id s)).
Proof. intros Hnode. run_method. by rewrite Hnode. Qed.

Lemma step_flag_needs_node s (c : call) :
  flag_needs_node s -> flag_needs_node (step s c).
Proof.
  intros Hflag.
  destruct (decide (c = CallSetStarted)) as [->|Hstarted];
    [|destruct (decide (c = CallSetStopped)) as [->|Hstopped]].
  - unfold step, after.
    destruct (Payload.node_id (_context (self s))) as [n|] eqn:Hnode.
    + rewrite (set_started_with_node s n Hnode). unfold flag_needs_node. simpl.
      congruence.
    + by rewrite (set_started_without_node s Hnode).
  - unfold step, after.
    destruct (Payload.node_id (_context (self s))) as [n|] eqn:Hnode.
    + rewrite (set_stopped_with_node s n Hnode). unfold flag_needs_node. simpl.
      congruence.
    + by rewrite (set_stopped_without_node s Hnode).
  - destruct (call_same_attributes c Hstarted Hstopped s) as (Hctx & _ & _ & Hstate).
    unfold flag_needs_node. rewrite Hctx, Hstate. apply Hflag.
Qed.

Lemma run_flag_needs_node (cs : list call) s :
  flag_needs_node s -> flag_needs_node (run cs s).
Proof.
  revert s. induction cs as [|c cs IH]; intros s Hflag; [done|].
  simpl. by apply IH, step_flag_needs_node.
Qed.

(** C10: for every context the host builds and every sequence of calls on
    it: both predicates are false at the start; after the calls at most
    one of [is_set_started()] and [is_set_stopped()] returns true;
    [set_started] then makes [is_set_stopped] false and [set_stopped]
    makes [is_set_started] false; and a setter that returns makes its own
    predicate true, so the last setter wins. *)
Theorem lifecycle_flag_exclusive (ctx : option Payload.t) (o : t) (b : B)
    (past : list storage_call) (registry : gmap string logging.Logger)
    (fresh : nat) (cs : list call) :
  __init__ ctx = Ok o ->
  let s0 := start o b past registry fresh in
  let s := run cs s0 in
  (outcome is_set_started s0 = Ok false /\ outcome is_set_stopped s0 = Ok false) /\
  ~ (outcome is_set_started s = Ok true /\ outcome is_set_stopped s = Ok true) /\
  outcome is_set_stopped (after set_started s) = Ok false /\
  outcome is_set_started (after set_stopped s) = Ok false /\
  (outcome set_started s = Ok tt ->
   outcome is_set_started (after set_started s) = Ok true) /\
  (outcome set_stopped s = Ok tt ->
   outcome is_set_stopped (after set_stopped s) = Ok true).
Proof.
  intros Hinit s0 s.
  assert (_lifecycle_state o = None) as Hunset.
  { unfold __init__ in Hinit. unfold mbind, result_bind in Hinit.
    repeat match type of Hinit with
           | context [match ?x with _ => _ end] => destruct x
           end; by inversion Hinit. }
  assert (flag_needs_node s) as Hflag.
  { apply run_flag_needs_node. by intros _. }
  split; [|split].
  - by run_method; rewrite Hunset.
  - run_method. intros [[= Hstarted] [= Hstopped]].
    apply bool_decide_eq_true in Hstarted, Hstopped.
    rewrite Hstarted in Hstopped. discriminate Hstopped.
  - unfold outcome, after.
    destruct (Payload.node_id (_context (self s))) as [n|] eqn:Hnode.
    + rewrite (set_started_with_node s n Hnode), (set_stopped_with_node s n Hnode).
      by run_method.
    + rewrite (set_started_without_node s Hnode), (set_stopped_without_node s Hnode).
      specialize (Hflag Hnode).
      repeat split; try done; by run_method; rewrite Hflag.
Qed.

(** *** The related node *)

(** No call replaces the payload or the views built from it. *)
Lemma step_same_views s (c : call) :
  _context (self (step s c)) = _context (self s) /\
  _capabilities (self (step s c)) = _capabilities (self s) /\
  _related (self (step s c)) = _related (self s).
Proof.
  destruct (decide (c = CallSetStarted)) as [->|Hstarted];
    [|destruct (decide (c = CallSetStopped)) as [->|Hstopped]].
  - unfold step, after.
    destruct (Payload.node_id (_context (self s))) as [n|] eqn:Hnode.
    + by rewrite (set_started_with_node s n Hnode).
    + by rewrite (set_started_without_node s Hnode).
  - unfold step, after.
    destruct (Payload.node_id (_context (self s))) as [n|] eqn:Hnode.
    + by rewrite (set_stopped_with_node s n Hnode).
    + by rewrite (set_stopped_without_node s Hnode).
  - destruct (call_same_attributes c Hstarted Hstopped s) as (? & ? & ? & _). done.
Qed.

Lemma run_same_views (cs : list call) s :
  _context (self (run cs s)) = _context (self s) /\
  _capabilities (self (run cs s)) = _capabilities (self s) /\
  _related (self (run cs s)) = _related (self s).
Proof.
  revert s. induction cs as [|c cs IH]; intros s; [done|].
  simpl. destruct (IH (step s c)) as (-> & -> & ->). apply step_same_views.
Qed.

(** C8, as the code has it: for every invocation payload with a related
    sub-record that has its node identifier and its declared properties
    (the code subscripts both keys): the related view is
    built, and its runtime properties are [capabilities[node_id]] when the
    payload has a capabilities mapping with that key and the empty mapping
    otherwise; the context keeps this view whatever is called on it; the
    indexed get returns the declared-property value when the key is
    declared, else the runtime-property value, and fails with KeyNotFound
    when both lack the key; membership is true exactly when one of the two
    mappings has the key. *)
Theorem related_view (ctx : Payload.t) (related_ : Payload.related_t)
    (n : string) (props : dict) :
  Payload.related ctx = Some related_ ->
  Payload.related_node_id related_ = Some n ->
  Payload.related_node_properties related_ = Some props ->
  let runtime : dict :=
    match Payload.capabilities ctx with
    | Some capabilities =>
        match capabilities !! n with
        | Some runtime => runtime
        | None => ∅
        end
    | None => ∅
    end in
  let view := CloudifyRelatedNode.mk related_ runtime in
  CloudifyRelatedNode.__init__ ctx = Ok view /\
  CloudifyRelatedNode.runtime_properties view = runtime /\
  (exists o,
      __init__ (Some ctx) = Ok o /\ _related o = Some view /\
      forall s (cs : list call),
        self s = o -> outcome related (run cs s) = Ok (Some view)) /\
  (forall key,
      CloudifyRelatedNode.__getitem__ view key
      = match props !! key with
        | Some v => Ok v
        | None =>
            match runtime !! key with
            | Some v => Ok v
            | None => Raise (KeyNotFound key)
            end
        end) /\
  (forall key,
      CloudifyRelatedNode.__contains__ view key
      = Ok (bool_decide (is_Some (props !! key) \/ is_Some (runtime !! key)))).
Proof.
  intros Hrelated Hid Hprops runtime view.
  assert (CloudifyRelatedNode.__init__ ctx = Ok view) as Hview.
  { unfold CloudifyRelatedNode.__init__, CloudifyRelatedNode.related_id.
    rewrite Hrelated, Hid. subst view runtime.
    destruct (Payload.capabilities ctx) as [capabilities|]; [|done].
    simpl. by destruct (capabilities !! n). }
  split; [done|]. split; [done|]. split; [|split].
  - eexists. unfold __init__. rewrite Hrelated, Hview. simpl.
    split; [reflexivity|]. split; [done|].
    intros s cs Hself. unfold outcome, related. unfold_monad. cbn.
    destruct (run_same_views cs s) as (_ & _ & ->). by rewrite Hself.
  - intros key.
    unfold CloudifyRelatedNode.__getitem__, CloudifyRelatedNode.properties.
    simpl. rewrite Hprops. simpl. unfold has_key, subscript.
    destruct (props !! key) as [v|] eqn:Hkey.
    + by rewrite bool_decide_eq_true_2.
    + by rewrite bool_decide_eq_false_2; [|intros [? ?]].
  - intros key.
    unfold CloudifyRelatedNode.__contains__, CloudifyRelatedNode.properties.
    simpl. rewrite Hprops. simpl. f_equal. unfold has_key.
    destruct (props !! key), (runtime !! key); simpl.
    all: repeat first [rewrite bool_decide_eq_true_2 by eauto
                      |rewrite bool_decide_eq_false_2 by
                         (first [by intros [? ?] | by intros [[? ?]|[? ?]]])].
    all: done.
Qed.

End context.

(** C8, as the specification words it, for every payload with a related
    sub-record, fails: with capabilities [{"vm1": {"ip": "10.0.0.1"},
    "vm2": {"port": 80}}] and [related = {node_id: "vm1"}], the view is
    built and its runtime properties have ["ip"], yet [view["ip"]] and
    ["ip" in view] do not give the runtime value and true: both raise
    KeyError on ['node_properties']. *)
Lemma related_lookup_needs_properties :
  (exists view,
      CloudifyRelatedNode.__init__ Examples.related_without_properties = Ok view /\
      CloudifyRelatedNode.runtime_properties view !! "ip" = Some (VStr "10.0.0.1") /\
      CloudifyRelatedNode.__getitem__ view "ip" = Raise (KeyNotFound "node_properties") /\
      CloudifyRelatedNode.__contains__ view "ip" = Raise (KeyNotFound "node_properties")) /\
  ~ related_lookup_as_specified Examples.related_without_properties "ip".
Proof.
  split.
  - eexists. split; [reflexivity|]. by vm_compute.
  - intros (view & Hview & Hget & _).
    vm_compute in Hview. injection Hview as <-.
    vm_compute in Hget. discriminate Hget.
Qed.

(** ** The logger *)

(** The loop, one round at a time. *)
Lemma remove_handlers_loop_round (i : nat) (logger : logging.Logger) :
  remove_handlers_loop i logger
  = match logging.handlers logger !! i with
    | Some h => remove_handlers_loop (S i) (logging.removeHandler h logger)
    | None => logger
    end.
Proof.
  funelim (remove_handlers_loop i logger).
  - by rewrite E.
  - by rewrite e.
Qed.

(** Removing the handler found at an index of a list without repetition
    deletes that index. *)
Lemma list_remove_at (hs : list logging.Handler) (i : nat) (h : logging.Handler) :
  NoDup hs -> hs !! i = Some h -> logging.list_remove h hs = delete i hs.
Proof.
  intros Hnodup. revert i.
  induction Hnodup as [|x hs Hx _ IH]; intros i Hi; [done|].
  destruct i as [|i]; simpl in *.
  - injection Hi as ->. by rewrite decide_True.
  - rewrite decide_False.
    + f_equal. by apply IH.
    + intros ->. apply Hx. by apply list_elem_of_lookup_2 in Hi.
Qed.

Lemma removeHandler_at (logger : logging.Logger) (i : nat) (h : logging.Handler) :
  NoDup (logging.handlers logger) ->
  logging.handlers logger !! i = Some h ->
  logging.handlers (logging.removeHandler h logger) = delete i (logging.handlers logger).
Proof.
  intros Hnodup Hi. unfold logging.removeHandler.
  rewrite decide_True by (by apply list_elem_of_lookup_2 in Hi).
  simpl. by apply list_remove_at.
Qed.

(** The loop never removes a handler that the index has passed. *)
Lemma remove_handlers_loop_passed (i : nat) (logger : logging.Logger) (j : nat) :
  NoDup (logging.handlers logger) ->
  j < i ->
  logging.handlers (remove_handlers_loop i logger) !! j = logging.handlers logger !! j.
Proof.
  funelim (remove_handlers_loop i logger); intros Hnodup Hj; [|done].
  pose proof (removeHandler_at logger i h Hnodup E) as Hdelete.
  rewrite H.
  - rewrite Hdelete. by apply list_lookup_delete_lt.
  - rewrite Hdelete. eapply sublist_NoDup; [done|apply sublist_delete].
  - lia.
Qed.

(** With two or more handlers attached, the loop leaves the second one
    attached. *)
Lemma remove_handlers_loop_skips_second (lvl : Z) (h1 h2 : logging.Handler)
    (more : list logging.Handler) (p : bool) :
  NoDup (h1 :: h2 :: more) ->
  logging.handlers (remove_handlers_loop 0 (logging.mk_logger lvl (h1 :: h2 :: more) p)) !! 0
  = Some h2.
Proof.
  intros Hnodup.
  rewrite remove_handlers_loop_round. simpl.
  set (logger := logging.mk_logger lvl (h1 :: h2 :: more) p).
  rewrite remove_handlers_loop_passed; [|..|lia].
  - by rewrite (removeHandler_at logger 0 h1).
  - rewrite (removeHandler_at logger 0 h1); [|done..]. simpl.
    by apply NoDup_cons in Hnodup as [_ ?].
Qed.

Section logger.

Context {B : Type} `{!Manager B}.
Import CloudifyContext.

Implicit Types (s : State B).

(** The first access wires the logger named after the task: the logger
    that the registry has under this name, or a new one, gets level INFO,
    goes through the removal loop, gets propagation switched on and the
    new handler added; the other loggers stay as they are. *)
Lemma logger_first s :
  _logger (self s) = None ->
  let prior := match loggers s !! logger_name s with
               | Some l => l
               | None => logging.new_logger
               end in
  let s' := after logger s in
  outcome logger s = Ok (Some (logger_name s)) /\
  _logger (self s') = Some (logger_name s) /\
  loggers s' !! logger_name s
  = Some (logging.addHandler (context_handler s)
            (logging.set_propagate true
               (remove_handlers_loop 0 (logging.setLevel logging.INFO prior)))) /\
  (forall other, other <> logger_name s -> loggers s' !! other = loggers s !! other).
Proof.
  intros Hnone prior s'. subst s'. unfold outcome, after.
  unfold logger, _init_cloudify_logger, task_name. unfold_monad. cbn.
  rewrite Hnone. cbn. fold (logger_name s).
  split; [done|]. split; [done|].
  unfold logging.getLogger, context_handler, logging.setFormatter. cbn.
  split.
  - rewrite !lookup_alter_eq. subst prior.
    destruct (loggers s !! logger_name s) as [l|] eqn:Hl.
    + by rewrite Hl.
    + by rewrite lookup_insert_eq.
  - intros other Hother. rewrite !lookup_alter_ne by done.
    destruct (loggers s !! logger_name s); [done|].
    by rewrite lookup_insert_ne.
Qed.

(** A later access returns the logger wired before and changes nothing. *)
Lemma logger_once s (name : string) :
  _logger (self s) = Some name -> logger s = (Ok (Some name), s).
Proof.
  intros Hsome. unfold logger. unfold_monad. cbn. rewrite Hsome. cbn.
  by rewrite Hsome.
Qed.

(** With two or more different handlers on the logger beforehand, the
    wiring leaves the second of them attached. *)
Lemma logger_skips_second_handler s (lvl : Z) (h1 h2 : logging.Handler)
    (more : list logging.Handler) (p : bool) :
  _logger (self s) = None ->
  loggers s !! logger_name s = Some (logging.mk_logger lvl (h1 :: h2 :: more) p) ->
  NoDup (h1 :: h2 :: more) ->
  exists wired,
    loggers (after logger s) !! logger_name s = Some wired /\
    h2 ∈ logging.handlers wired.
Proof.
  intros Hnone Hprior Hnodup.
  destruct (logger_first s Hnone) as (_ & _ & Hwired & _).
  rewrite Hprior in Hwired. eexists. split; [exact Hwired|].
  pose proof (remove_handlers_loop_skips_second logging.INFO h1 h2 more p Hnodup)
    as Hsecond.
  apply list_elem_of_lookup_2 in Hsecond.
  unfold logging.addHandler, logging.set_propagate, logging.setLevel. simpl.
  case_decide; simpl; [done|]. apply elem_of_app. by left.
Qed.

(** With at most one handler on the logger beforehand, the wiring leaves
    the context's handler as the only one, with propagation on. *)
Lemma logger_replaces_single_handler s (lvl : Z) (prior : list logging.Handler)
    (p : bool) :
  _logger (self s) = None ->
  loggers s !! logger_name s = Some (logging.mk_logger lvl prior p) ->
  length prior <= 1 ->
  loggers (after logger s) !! logger_name s
  = Some (logging.mk_logger logging.INFO [context_handler s] true).
Proof.
  intros Hnone Hprior Hlen.
  destruct (logger_first s Hnone) as (_ & _ & Hwired & _).
  rewrite Hprior in Hwired. rewrite Hwired. f_equal.
  destruct prior as [|h [|h' prior]]; simpl in Hlen; [| |lia].
  - by rewrite remove_handlers_loop_round.
  - rewrite remove_handlers_loop_round. simpl.
    unfold logging.removeHandler. simpl.
    rewrite decide_True by set_solver. simpl. rewrite decide_True by done.
    by rewrite remove_handlers_loop_round.
Qed.

End logger.

(** C9, where the code departs from it: the logger [tasks.start] has two
    handlers before the task runs. The first access to [logger] returns the
    logger named after the task, at level INFO, with propagation on and
    with the context's handler attached last, but the prior handler
    [logfile] is still attached: the removal loop takes handlers off the
    list it is iterating over, so it passes over every second one. *)
Theorem logger_leaves_prior_handler :
  let s := Examples.fresh_state Examples.db1_start Examples.two_handlers 2 in
  let s' := CloudifyContext.after CloudifyContext.logger s in
  CloudifyContext.outcome CloudifyContext.logger s = Ok (Some "tasks.start") /\
  CloudifyContext.loggers s' !! "tasks.start"
  = Some (logging.mk_logger logging.INFO
            [Examples.logfile;
             logging.mk_handler 2 logging.CloudifyPluginLoggingHandler
                                (Some "%(message)s")]
            true).
Proof. vm_compute. split; reflexivity. Qed.

(** * Worked examples *)

Section examples.

Import CloudifyContext.

Let db1 : State (gmap string dict) := Examples.fresh_state Examples.db1 ∅ 0.
Let no_node : State (gmap string dict) := Examples.fresh_state Examples.no_node ∅ 0.

(** [ctx["port"]] is the declared 5432 and makes no storage call;
    [ctx["host"]] fetches the node state of [db1] and fails with
    KeyNotFound. *)
Lemma combined_lookup_witness :
  __getitem__ "port" db1 = (Ok (VInt 5432), db1) /\
  outcome (__getitem__ "host") db1 = Raise (KeyNotFound "host") /\
  calls (after (__getitem__ "host") db1) = [GetNodeState "db1"].
Proof.
  destruct (combined_lookup db1 "port") as [Hdeclared _].
  destruct (combined_lookup db1 "host") as [_ Hmissing].
  split.
  - apply (Hdeclared {[ "port" := VInt 5432 ]} (VInt 5432)); reflexivity.
  - destruct Hmissing as [_ Hnode].
    + intros p [= <-]. reflexivity.
    + destruct (Hnode "db1" eq_refl) as (_ & Hget & _).
      unfold outcome, after. rewrite Hget. split; reflexivity.
Defined.

(** Three accesses make the one call [get_node_state("db1")], and so do
    three accesses after a flush. *)
Lemma runtime_properties_fetches_once_witness :
  calls_since db1 (run (replicate 3 CallRuntimeProperties) db1) = [GetNodeState "db1"] /\
  calls_since (after update db1)
              (run (replicate 3 CallRuntimeProperties) (after update db1))
  = [GetNodeState "db1"].
Proof.
  destruct (runtime_properties_fetches_once db1 "db1" 2 eq_refl)
    as (Hfirst & _ & Hflushed).
  split; [|exact Hflushed].
  by destruct (Hfirst eq_refl) as (Hcalls & _).
Defined.

(** A flush after a write stores the written state with one call and
    empties the cache; a flush at the start does nothing. *)
Lemma update_flushes_once_witness :
  let written := after (__setitem__ "host" (VStr "h")) db1 in
  calls_since written (after update written)
  = [UpdateNodeState (NodeState.mk "db1" {[ "host" := VStr "h" ]})] /\
  _node_state (self (after update written)) = None /\
  update db1 = (Ok tt, db1).
Proof.
  intros written.
  destruct (update_flushes_once written) as [Hcached _].
  destruct (update_flushes_once db1) as [_ Hempty].
  destruct (Hcached (NodeState.mk "db1" {[ "host" := VStr "h" ]}) eq_refl)
    as (_ & Hcalls & _ & _ & Hcache).
  split; [exact Hcalls|]. split; [exact Hcache|].
  apply Hempty. reflexivity.
Defined.

(** Setting ["port"], a declared key, writes the cached node state and
    leaves the declared 5432 in place. *)
Lemma setitem_writes_node_state_only_witness :
  let s' := after (__setitem__ "port" (VInt 1)) db1 in
  outcome properties s' = Ok (Some {[ "port" := VInt 5432 ]}) /\
  storage s' = ∅ /\
  _node_state (self s') = Some (NodeState.mk "db1" {[ "port" := VInt 1 ]}).
Proof.
  intros s'.
  destruct (setitem_writes_node_state_only db1 "port" (VInt 1))
    as [(_ & Hprops & Hstorage & _) Hnode].
  destruct (Hnode "db1" eq_refl) as (_ & _ & Hcache & _).
  split; [exact Hprops|]. split; [exact Hstorage|]. exact Hcache.
Defined.

(** Without a node identifier [set_started] and [runtime_properties]
    fail. *)
Lemma no_node_in_context_witness :
  raises_NoNodeInContext set_started no_node /\
  raises_NoNodeInContext runtime_properties no_node.
Proof.
  destruct (no_node_in_context no_node "k" VNone eq_refl)
    as (Hstarted & _ & Hruntime & _).
  by split.
Defined.

(** [db1] related to [vm1]: the view has the runtime properties of
    [vm1]. *)
Lemma related_view_witness :
  exists view,
    CloudifyRelatedNode.__init__ Examples.db1_on_vm1 = Ok view /\
    CloudifyRelatedNode.runtime_properties view = {[ "ip" := VStr "10.0.0.1" ]} /\
    CloudifyRelatedNode.__getitem__ view "image" = Ok (VStr "ubuntu") /\
    CloudifyRelatedNode.__getitem__ view "ip" = Ok (VStr "10.0.0.1") /\
    CloudifyRelatedNode.__getitem__ view "zone" = Raise (KeyNotFound "zone") /\
    CloudifyRelatedNode.__contains__ view "zone" = Ok false.
Proof.
  destruct (related_view (B := gmap string dict) Examples.db1_on_vm1
              (Payload.mk_related (Some "vm1") (Some {[ "image" := VStr "ubuntu" ]}))
              "vm1" {[ "image" := VStr "ubuntu" ]} eq_refl eq_refl eq_refl)
    as (Hinit & Hruntime & _ & Hget & Hin).
  eexists. split; [exact Hinit|]. split; [exact Hruntime|].
  rewrite !Hget, Hin. repeat split.
Defined.

(** Started, then stopped: only [is_set_stopped] holds. *)
Lemma lifecycle_flag_exclusive_witness :
  let s := run [CallSetStarted] db1 in
  outcome is_set_stopped (after set_started s) = Ok false /\
  outcome is_set_started (after set_stopped s) = Ok false /\
  outcome is_set_stopped (after set_stopped s) = Ok true.
Proof.
  intros s.
  destruct (lifecycle_flag_exclusive (Some Examples.db1) (Examples.context_of Examples.db1)
              (∅ : gmap string dict) [] ∅ 0 [CallSetStarted] eq_refl)
    as (_ & _ & Hstopped & Hstarted & _ & Hwins).
  split; [exact Hstopped|]. split; [exact Hstarted|].
  apply Hwins. reflexivity.
Defined.

End examples.

(** * Further properties *)

(** ** ContextCapabilities: lookup and membership *)

(** The three outcomes of [_find_item], by the number of holders. *)
Lemma find_item_cases (capabilities : capabilities_dict) (key : string) :
  let self := ContextCapabilities.__init__ (Some capabilities) in
  (holders capabilities key = ∅ /\
   ContextCapabilities._find_item self key = Ok (false, VNone)) \/
  (exists n caps v,
      holders capabilities key = {[ n := caps ]} /\
      capabilities !! n = Some caps /\ caps !! key = Some v /\
      ContextCapabilities._find_item self key = Ok (true, v)) \/
  (2 <= size (holders capabilities key) /\
   ContextCapabilities._find_item self key
   = Raise (CapabilityAmbiguous key capabilities)).
Proof.
  intros self.
  destruct (map_choose_or_empty (holders capabilities key)) as [(n & caps & Hn)|Hempty].
  - right.
    destruct (map_choose_or_empty (delete n (holders capabilities key)))
      as [(n' & caps' & Hn')|Hrest].
    + right. apply lookup_delete_Some in Hn' as [Hne Hn'].
      apply holders_lookup in Hn as [Hn Hk], Hn' as [Hn' Hk'].
      split.
      * assert (size (holders capabilities key) <> 0) as H0.
        { intros H0. apply map_size_empty_iff in H0.
          assert (holders capabilities key !! n = Some caps) as Hin
            by (apply holders_lookup; eauto).
          by rewrite H0 in Hin. }
        assert (size (holders capabilities key) <> 1) as H1.
        { intros H1.
          assert (holders capabilities key !! n = Some caps) as Hin
            by (apply holders_lookup; eauto).
          pose proof (map_size_delete_Some n (holders capabilities key)
                        (mk_is_Some _ _ Hin)) as Hdel.
          rewrite H1 in Hdel. simpl in Hdel. apply map_size_empty_iff in Hdel.
          assert (delete n (holders capabilities key) !! n' = Some caps') as Hin'
            by (apply lookup_delete_Some; split; [done|]; apply holders_lookup; eauto).
          by rewrite Hdel in Hin'. }
        lia.
      * by apply (find_item_ambiguous capabilities key n n' caps caps').
    + left.
      assert (holders capabilities key = {[ n := caps ]}) as Hone.
      { rewrite <- (insert_delete_id (holders capabilities key) n caps Hn), Hrest.
        apply insert_empty. }
      apply holders_lookup in Hn as [Hn [v Hv]].
      exists n, caps, v. repeat split; try done.
      apply (find_item_unique capabilities key n caps v Hn Hv).
      intros n' caps' Hne Hn'.
      destruct (caps' !! key) as [w|] eqn:Hw; [|done].
      assert (holders capabilities key !! n' = Some caps') as Hin
        by (apply holders_lookup; eauto).
      rewrite Hone, lookup_singleton_ne in Hin; [discriminate|done].
  - left. split; [done|].
    apply find_item_absent. intros n caps Hn.
    destruct (caps !! key) as [w|] eqn:Hw; [|done].
    assert (holders capabilities key !! n = Some caps) as Hin
      by (apply holders_lookup; eauto).
    by rewrite Hempty in Hin.
Qed.

(** X1: the outcome of a capability lookup does not depend on the order in
    which the dictionary hands out its values: the loop of [_find_item],
    run over any rearrangement of the values, gives what [_find_item]
    gives. *)
Theorem find_item_any_order (capabilities : capabilities_dict) (key : string)
    (vs : list dict) :
  vs ≡ₚ ContextCapabilities.values capabilities ->
  ContextCapabilities.find_item_loop capabilities key vs false VNone
  = ContextCapabilities._find_item (ContextCapabilities.__init__ (Some capabilities)) key.
Proof. intros Hperm. by apply find_item_loop_order. Qed.

Lemma find_item_any_order_witness :
  ContextCapabilities.find_item_loop Examples.two_dependencies "ip"
    [ {[ "port" := VInt 80 ]}; {[ "ip" := VStr "10.0.0.1" ]} ] false VNone
  = Ok (true, VStr "10.0.0.1") /\
  ContextCapabilities.find_item_loop Examples.two_dependencies "ip"
    [ {[ "ip" := VStr "10.0.0.1" ]}; {[ "port" := VInt 80 ]} ] false VNone
  = Ok (true, VStr "10.0.0.1").
Proof.
  assert (ContextCapabilities._find_item
            (ContextCapabilities.__init__ (Some Examples.two_dependencies)) "ip"
          = Ok (true, VStr "10.0.0.1")) as Hfind by (vm_compute; reflexivity).
  split.
  - rewrite <- Hfind. apply find_item_any_order.
    vm_compute. apply perm_swap.
  - rewrite <- Hfind. apply find_item_any_order.
    vm_compute. reflexivity.
Defined.

(** X2: membership and lookup agree, for every capabilities mapping and
    key: [key in capabilities] is true exactly when [capabilities[key]]
    returns, false exactly when the lookup fails with the not-found
    KeyError, and membership raises exactly when the lookup raises the
    ambiguity RuntimeError, and raises that same error. *)
Theorem capability_membership_agrees (capabilities : capabilities_dict) (key : string) :
  let self := ContextCapabilities.__init__ (Some capabilities) in
  (ContextCapabilities.__contains__ self key = Ok true <->
   exists v, ContextCapabilities.__getitem__ self key = Ok v) /\
  (ContextCapabilities.__contains__ self key = Ok false <->
   ContextCapabilities.__getitem__ self key = Raise (CapabilityNotFound key capabilities)) /\
  (forall e,
      ContextCapabilities.__contains__ self key = Raise e <->
      ContextCapabilities.__getitem__ self key = Raise e /\
      e = CapabilityAmbiguous key capabilities).
Proof.
  intros self.
  unfold ContextCapabilities.__contains__, ContextCapabilities.__getitem__.
  destruct (find_item_cases capabilities key)
    as [[_ Hfind]|[(n & caps & v & _ & _ & _ & Hfind)|[_ Hfind]]];
    fold self in Hfind; rewrite Hfind; simpl.
  - split; [|split].
    + split; [done|]. by intros [? ?].
    + done.
    + intros e. split; [done|]. by intros [? ->].
  - split; [|split].
    + split; eauto.
    + done.
    + intros e. split; [done|]. by intros [? ->].
  - split; [|split].
    + split; [done|]. by intros [? ?].
    + done.
    + intros e. split.
      * by intros [= <-].
      * by intros [? ->].
Qed.

(** X3: a capability lookup that returns a value returns the value that
    the one holder of the key has under it: there is a dependency node
    whose runtime properties map the key to that value, and no other
    dependency node has the key. *)
Theorem capability_get_sound (capabilities : capabilities_dict) (key : string)
    (v : value) :
  ContextCapabilities.__getitem__ (ContextCapabilities.__init__ (Some capabilities)) key
  = Ok v ->
  exists n caps,
    capabilities !! n = Some caps /\ caps !! key = Some v /\
    forall n' caps', capabilities !! n' = Some caps' -> is_Some (caps' !! key) -> n' = n.
Proof.
  unfold ContextCapabilities.__getitem__.
  destruct (find_item_cases capabilities key)
    as [[_ Hfind]|[(n & caps & w & Hone & Hn & Hw & Hfind)|[_ Hfind]]];
    rewrite Hfind; simpl; try done.
  intros [= <-]. exists n, caps. repeat split; try done.
  intros n' caps' Hn' Hk'.
  assert (holders capabilities key !! n' = Some caps') as Hin
    by (by apply holders_lookup).
  rewrite Hone in Hin. apply lookup_singleton_Some in Hin as [? _]. done.
Qed.

Lemma capability_get_sound_witness :
  exists n caps,
    Examples.two_dependencies !! n = Some caps /\
    caps !! "port" = Some (VInt 80) /\
    forall n' caps',
      Examples.two_dependencies !! n' = Some caps' -> is_Some (caps' !! "port") -> n' = n.
Proof.
  apply (capability_get_sound Examples.two_dependencies "port" (VInt 80)).
  vm_compute. reflexivity.
Defined.

(** X4: without dependencies and with one dependency a lookup is never
    ambiguous. A capabilities object built with no mapping holds the empty
    mapping, where every key is not found and not a member; with one
    dependency node the lookup is the lookup in that node's runtime
    properties. *)
Theorem capability_few_dependencies (key n : string) (caps : dict) :
  let none := ContextCapabilities.__init__ None in
  let one := ContextCapabilities.__init__ (Some {[ n := caps ]}) in
  (ContextCapabilities.get_all none = ∅ /\
   ContextCapabilities.__getitem__ none key = Raise (CapabilityNotFound key ∅) /\
   ContextCapabilities.__contains__ none key = Ok false) /\
  ContextCapabilities.__getitem__ one key
  = match caps !! key with
    | Some v => Ok v
    | None => Raise (CapabilityNotFound key {[ n := caps ]})
    end /\
  ContextCapabilities.__contains__ one key = Ok (bool_decide (is_Some (caps !! key))).
Proof.
  intros none one. split; [|].
  - unfold ContextCapabilities.__getitem__, ContextCapabilities.__contains__,
      ContextCapabilities._find_item, ContextCapabilities.values. simpl.
    by rewrite map_to_list_empty.
  - unfold ContextCapabilities.__getitem__, ContextCapabilities.__contains__,
      ContextCapabilities._find_item, ContextCapabilities.values. simpl.
    rewrite map_to_list_singleton. simpl.
    by destruct (caps !! key) as [v|].
Qed.

Lemma holders_insert (capabilities : capabilities_dict) (key n : string) (caps : dict) :
  capabilities !! n = None ->
  holders (<[n := caps]> capabilities) key
  = match caps !! key with
    | Some _ => <[n := caps]> (holders capabilities key)
    | None => holders capabilities key
    end.
Proof.
  intros Hfresh. unfold holders.
  destruct (caps !! key) as [v|] eqn:Hkey.
  - rewrite map_filter_insert_True; [done|]. simpl. by rewrite Hkey.
  - rewrite map_filter_insert_False, delete_id; [done..|].
    simpl. rewrite Hkey. by intros [? ?].
Qed.

Lemma holders_fresh (capabilities : capabilities_dict) (key n : string) :
  capabilities !! n = None -> holders capabilities key !! n = None.
Proof.
  intros Hfresh. destruct (holders capabilities key !! n) as [caps|] eqn:Hn; [|done].
  apply holders_lookup in Hn as [Hn _]. congruence.
Qed.

(** The outcome of [_find_item], read off the holders. *)
Lemma find_item_of_none (capabilities : capabilities_dict) (key : string) :
  holders capabilities key = ∅ ->
  ContextCapabilities._find_item (ContextCapabilities.__init__ (Some capabilities)) key
  = Ok (false, VNone).
Proof.
  intros Hnone.
  destruct (find_item_cases capabilities key)
    as [[_ Hfind]|[(n & caps & v & Hone & _)|[Hmany _]]]; [done|..].
  - rewrite Hnone in Hone. symmetry in Hone. by apply map_non_empty_singleton in Hone.
  - rewrite Hnone, map_size_empty in Hmany. lia.
Qed.

Lemma find_item_of_one (capabilities : capabilities_dict) (key n : string)
    (caps : dict) (v : value) :
  holders capabilities key = {[ n := caps ]} -> caps !! key = Some v ->
  ContextCapabilities._find_item (ContextCapabilities.__init__ (Some capabilities)) key
  = Ok (true, v).
Proof.
  intros Hone Hv.
  destruct (find_item_cases capabilities key)
    as [[Hnone _]|[(n' & caps' & v' & Hone' & _ & Hv' & Hfind)|[Hmany _]]].
  - rewrite Hnone in Hone. symmetry in Hone. by apply map_non_empty_singleton in Hone.
  - assert (({[n := caps]} : capabilities_dict) !! n' = Some caps') as Hin
      by (rewrite <- Hone, Hone'; apply lookup_singleton_eq).
    apply lookup_singleton_Some in Hin as [_ <-]. congruence.
  - rewrite Hone, map_size_singleton in Hmany. lia.
Qed.

Lemma find_item_of_many (capabilities : capabilities_dict) (key : string) :
  2 <= size (holders capabilities key) ->
  ContextCapabilities._find_item (ContextCapabilities.__init__ (Some capabilities)) key
  = Raise (CapabilityAmbiguous key capabilities).
Proof.
  intros Hmany.
  destruct (find_item_cases capabilities key)
    as [[Hnone _]|[(n & caps & v & Hone & _)|[_ Hfind]]]; [..|done].
  - rewrite Hnone, map_size_empty in Hmany. lia.
  - rewrite Hone, map_size_singleton in Hmany. lia.
Qed.

(** X5: how a further dependency node changes a lookup. A node whose
    runtime properties lack the key changes nothing: the same value is
    returned, the key stays not found, or stays ambiguous. A node that has
    the key resolves a key that was not found before, to its own value, and
    makes every key that was found or ambiguous before ambiguous. *)
Theorem capability_add_dependency (capabilities : capabilities_dict)
    (key n : string) (caps : dict) :
  capabilities !! n = None ->
  let before := ContextCapabilities.__init__ (Some capabilities) in
  let after_ := ContextCapabilities.__init__ (Some (<[n := caps]> capabilities)) in
  (caps !! key = None ->
   (forall v, ContextCapabilities.__getitem__ after_ key = Ok v <->
              ContextCapabilities.__getitem__ before key = Ok v) /\
   (forall b, ContextCapabilities.__contains__ after_ key = Ok b <->
              ContextCapabilities.__contains__ before key = Ok b)) /\
  (forall w,
      caps !! key = Some w ->
      (ContextCapabilities.__contains__ before key = Ok false ->
       ContextCapabilities.__getitem__ after_ key = Ok w) /\
      (ContextCapabilities.__contains__ before key <> Ok false ->
       ContextCapabilities.__getitem__ after_ key
       = Raise (CapabilityAmbiguous key (<[n := caps]> capabilities)))).
Proof.
  intros Hfresh before after_.
  pose proof (holders_insert capabilities key n caps Hfresh) as Hholders.
  pose proof (holders_fresh capabilities key n Hfresh) as Hnotin.
  unfold ContextCapabilities.__getitem__, ContextCapabilities.__contains__.
  split; [intros Hkey|intros w Hkey]; rewrite Hkey in Hholders.
  - (* the new node lacks the key: the holders are the same *)
    destruct (find_item_cases capabilities key)
      as [[Hb Hfind]|[(n1 & caps1 & v1 & Hb & _ & Hv1 & Hfind)|[Hb Hfind]]];
      fold before in Hfind; rewrite Hfind.
    + rewrite Hb in Hholders.
      unfold after_. by rewrite (find_item_of_none _ _ Hholders).
    + rewrite Hb in Hholders.
      unfold after_. by rewrite (find_item_of_one _ _ _ _ _ Hholders Hv1).
    + rewrite <- Hholders in Hb.
      unfold after_. by rewrite (find_item_of_many _ _ Hb).
  - (* the new node has the key: it is one more holder *)
    assert (size (holders (<[n := caps]> capabilities) key)
            = S (size (holders capabilities key))) as Hsize
      by (rewrite Hholders; by apply map_size_insert_None).
    destruct (find_item_cases capabilities key)
      as [[Hb Hfind]|[(n1 & caps1 & v1 & Hb & _ & Hv1 & Hfind)|[Hb Hfind]]];
      fold before in Hfind; rewrite Hfind; simpl.
    + rewrite Hb, insert_empty in Hholders.
      unfold after_. by rewrite (find_item_of_one _ _ _ _ _ Hholders Hkey).
    + rewrite Hb, map_size_singleton in Hsize.
      unfold after_. rewrite (find_item_of_many (<[n := caps]> capabilities) key) by lia.
      done.
    + unfold after_. rewrite (find_item_of_many (<[n := caps]> capabilities) key) by lia.
      done.
Qed.

Lemma capability_add_dependency_witness :
  let more := <["vm3" := {[ "ip" := VStr "10.0.0.3" ]}]> Examples.two_dependencies in
  ContextCapabilities.__getitem__ (ContextCapabilities.mk more) "ip"
  = Raise (CapabilityAmbiguous "ip" more) /\
  (forall v,
      ContextCapabilities.__getitem__ (ContextCapabilities.mk more) "port" = Ok v <->
      ContextCapabilities.__getitem__ (ContextCapabilities.mk Examples.two_dependencies) "port"
      = Ok v).
Proof.
  intros more. split.
  - destruct (capability_add_dependency Examples.two_dependencies "ip" "vm3"
                {[ "ip" := VStr "10.0.0.3" ]} eq_refl) as [_ Hhas].
    destruct (Hhas (VStr "10.0.0.3") eq_refl) as [_ Hambiguous].
    apply Hambiguous. vm_compute. discriminate.
  - destruct (capability_add_dependency Examples.two_dependencies "port" "vm3"
                {[ "ip" := VStr "10.0.0.3" ]} eq_refl) as [Hlacks _].
    by destruct (Hlacks eq_refl) as [Hget _].
Defined.

(** ** CloudifyRelatedNode: construction and incomplete sub-records *)

(** X6: building the related view of a payload. Without a ['related'] key
    the constructor fails with KeyError. With a related sub-record that has
    no ['node_id']: when the payload has a ['capabilities'] key the
    constructor fails with KeyError on ['node_id']; when it has none the
    constructor returns a view with empty runtime properties, and it is the
    [node_id] property of that view that fails with the KeyError. *)
Theorem related_init_failures (ctx : Payload.t) :
  (Payload.related ctx = None ->
   CloudifyRelatedNode.__init__ ctx = Raise (KeyNotFound "related")) /\
  (forall props,
      Payload.related ctx = Some (Payload.mk_related None props) ->
      (is_Some (Payload.capabilities ctx) ->
       CloudifyRelatedNode.__init__ ctx = Raise (KeyNotFound "node_id")) /\
      (Payload.capabilities ctx = None ->
       exists view,
         CloudifyRelatedNode.__init__ ctx = Ok view /\
         CloudifyRelatedNode.runtime_properties view = ∅ /\
         CloudifyRelatedNode.node_id view = Raise (KeyNotFound "node_id"))).
Proof.
  unfold CloudifyRelatedNode.__init__. split.
  - by intros ->.
  - intros props ->. split.
    + by intros [capabilities ->].
    + intros ->. by eexists.
Qed.

Lemma related_init_failures_witness :
  CloudifyRelatedNode.__init__ Examples.db1 = Raise (KeyNotFound "related") /\
  CloudifyRelatedNode.__init__ Examples.related_without_id
  = Raise (KeyNotFound "node_id").
Proof.
  destruct (related_init_failures Examples.db1) as [Hnone _].
  destruct (related_init_failures Examples.related_without_id) as [_ Hnoid].
  split; [by apply Hnone|].
  destruct (Hnoid None eq_refl) as [Hcaps _]. apply Hcaps. by eexists.
Defined.

(** X7: a related sub-record without ['node_properties'] makes every
    indexed get and every membership test on the view fail with KeyError on
    ['node_properties'], also for a key that the view's runtime properties
    have. *)
Theorem related_without_properties (related_ : Payload.related_t) (runtime : dict)
    (key : string) :
  Payload.related_node_properties related_ = None ->
  let view := CloudifyRelatedNode.mk related_ runtime in
  CloudifyRelatedNode.properties view = Raise (KeyNotFound "node_properties") /\
  CloudifyRelatedNode.__getitem__ view key = Raise (KeyNotFound "node_properties") /\
  CloudifyRelatedNode.__contains__ view key = Raise (KeyNotFound "node_properties").
Proof.
  intros Hnone view.
  unfold CloudifyRelatedNode.__getitem__, CloudifyRelatedNode.__contains__,
    CloudifyRelatedNode.properties.
  simpl. by rewrite Hnone.
Qed.

Lemma related_without_properties_witness :
  let view := CloudifyRelatedNode.mk (Payload.mk_related (Some "vm1") None)
                                     {[ "ip" := VStr "10.0.0.1" ]} in
  CloudifyRelatedNode.__getitem__ view "ip" = Raise (KeyNotFound "node_properties") /\
  CloudifyRelatedNode.__contains__ view "ip" = Raise (KeyNotFound "node_properties").
Proof.
  intros view.
  by destruct (related_without_properties (Payload.mk_related (Some "vm1") None)
                 {[ "ip" := VStr "10.0.0.1" ]} "ip" eq_refl) as (_ & Hget & Hin).
Defined.

(** X8: on a related view membership and indexed get agree: a key is a
    member exactly when the get returns, and is not one exactly when the
    get fails with KeyError on that key; and the value returned is the
    declared one whenever the key is declared. *)
Theorem related_membership_agrees (view : CloudifyRelatedNode.t) (props : dict)
    (key : string) :
  CloudifyRelatedNode.properties view = Ok props ->
  (CloudifyRelatedNode.__contains__ view key = Ok true <->
   exists v, CloudifyRelatedNode.__getitem__ view key = Ok v) /\
  (CloudifyRelatedNode.__contains__ view key = Ok false <->
   CloudifyRelatedNode.__getitem__ view key = Raise (KeyNotFound key)) /\
  (forall v, props !! key = Some v -> CloudifyRelatedNode.__getitem__ view key = Ok v).
Proof.
  intros Hprops.
  unfold CloudifyRelatedNode.__contains__, CloudifyRelatedNode.__getitem__.
  rewrite Hprops. simpl. unfold has_key, subscript.
  destruct (props !! key) as [v|] eqn:Hdeclared.
  - rewrite bool_decide_eq_true_2 by eauto. simpl.
    split; [|split]; [split; eauto|done|by intros ? [= <-]].
  - rewrite bool_decide_eq_false_2 by (by intros [? ?]). simpl.
    destruct (CloudifyRelatedNode._runtime_properties view !! key) as [w|] eqn:Hruntime.
    + rewrite bool_decide_eq_true_2 by eauto.
      split; [|split]; [split; eauto|done|done].
    + rewrite bool_decide_eq_false_2 by (by intros [? ?]).
      split; [|split]; [|done|done].
      split; [done|]. by intros [? ?].
Qed.

Lemma related_membership_agrees_witness :
  let view := CloudifyRelatedNode.mk
                (Payload.mk_related (Some "vm1") (Some {[ "image" := VStr "ubuntu" ]}))
                {[ "ip" := VStr "10.0.0.1" ]} in
  (CloudifyRelatedNode.__contains__ view "ip" = Ok true <->
   exists v, CloudifyRelatedNode.__getitem__ view "ip" = Ok v) /\
  (CloudifyRelatedNode.__contains__ view "zone" = Ok false <->
   CloudifyRelatedNode.__getitem__ view "zone" = Raise (KeyNotFound "zone")).
Proof.
  intros view. split.
  - by destruct (related_membership_agrees view {[ "image" := VStr "ubuntu" ]} "ip" eq_refl)
      as (Htrue & _).
  - by destruct (related_membership_agrees view {[ "image" := VStr "ubuntu" ]} "zone" eq_refl)
      as (_ & Hfalse & _).
Defined.

(** ** CloudifyContext: construction *)

(** X9: the constructor of the context fails in one case only, a related
    sub-record without ['node_id'] in a payload that has a
    ['capabilities'] key, and then with KeyError on ['node_id']. Otherwise
    it returns an object that holds the payload (the empty one when none is
    given), a capabilities object over the payload's mapping or over the
    empty mapping, no logger, no cached node state, an unset lifecycle flag,
    and a related view exactly when the payload has a related sub-record. *)
Theorem init_outcome (ctx : option Payload.t) :
  let payload := match ctx with Some ctx => ctx | None => Payload.empty end in
  (CloudifyContext.__init__ ctx = Raise (KeyNotFound "node_id") <->
   exists props,
     Payload.related payload = Some (Payload.mk_related None props) /\
     is_Some (Payload.capabilities payload)) /\
  (forall e, CloudifyContext.__init__ ctx = Raise e -> e = KeyNotFound "node_id") /\
  (forall o,
      CloudifyContext.__init__ ctx = Ok o ->
      CloudifyContext._context o = payload /\
      ContextCapabilities.get_all (CloudifyContext._capabilities o)
      = match Payload.capabilities payload with
        | Some capabilities => capabilities
        | None => ∅
        end /\
      CloudifyContext._logger o = None /\
      CloudifyContext._node_state o = None /\
      CloudifyContext._lifecycle_state o = None /\
      (is_Some (CloudifyContext._related o) <-> is_Some (Payload.related payload))).
Proof.
  intros payload. unfold CloudifyContext.__init__. fold payload.
  unfold CloudifyRelatedNode.__init__, CloudifyRelatedNode.related_id.
  destruct (Payload.related payload) as [[[n|] props]|] eqn:Hrelated;
    destruct (Payload.capabilities payload) as [capabilities|] eqn:Hcaps;
    simpl; try destruct (capabilities !! n); simpl.
  all: split; [|split].
  all: try (split; [done|]; intros (? & ? & ?); try done; by destruct H0).
  all: try (by intros e [= <-]).
  all: try done.
  all: try (intros o [= <-]; simpl; repeat split; eauto; done).
  split; [|done]. intros _. exists props. split; [done|]. by eexists.
Qed.

(** X10: the related node's runtime properties are among the
    capabilities: a key that the related view's runtime properties have is
    never reported as not found by the capabilities of the same context,
    and when the capability lookup returns, it returns the related view's
    value. *)
Theorem related_runtime_is_capability (ctx : Payload.t) (o : CloudifyContext.t)
    (view : CloudifyRelatedNode.t) (key : string) (v : value) :
  CloudifyContext.__init__ (Some ctx) = Ok o ->
  CloudifyContext._related o = Some view ->
  CloudifyRelatedNode.runtime_properties view !! key = Some v ->
  ContextCapabilities.__contains__ (CloudifyContext._capabilities o) key <> Ok false /\
  (forall w,
      ContextCapabilities.__getitem__ (CloudifyContext._capabilities o) key = Ok w ->
      w = v).
Proof.
  unfold CloudifyContext.__init__, CloudifyRelatedNode.__init__,
    CloudifyRelatedNode.related_id.
  destruct (Payload.related ctx) as [[[n|] props]|] eqn:Hrelated;
    destruct (Payload.capabilities ctx) as [capabilities|] eqn:Hcaps;
    simpl; try destruct (capabilities !! n) as [runtime|] eqn:Hn; simpl.
  all: intros [= <-]; simpl; intros [= <-]; simpl; try done.
  intros Hkey.
  assert (holders capabilities key !! n = Some runtime) as Hholder
    by (apply holders_lookup; eauto).
  unfold ContextCapabilities.__contains__, ContextCapabilities.__getitem__.
  destruct (find_item_cases capabilities key)
    as [[Hnone _]|[(n' & caps' & v' & Hone & _ & Hv' & Hfind)|[_ Hfind]]].
  - by rewrite Hnone in Hholder.
  - simpl in Hfind. rewrite Hfind. simpl. split; [done|].
    intros w [= <-]. rewrite Hone in Hholder.
    apply lookup_singleton_Some in Hholder as [_ <-]. congruence.
  - simpl in Hfind. rewrite Hfind. simpl. by split.
Qed.

Lemma related_runtime_is_capability_witness :
  exists o view,
    CloudifyContext.__init__ (Some Examples.db1_on_vm1) = Ok o /\
    CloudifyContext._related o = Some view /\
    ContextCapabilities.__getitem__ (CloudifyContext._capabilities o) "ip"
    = Ok (VStr "10.0.0.1") /\
    ContextCapabilities.__contains__ (CloudifyContext._capabilities o) "ip" <> Ok false.
Proof.
  eexists. eexists.
  split; [reflexivity|]. split; [reflexivity|].
  split; [vm_compute; reflexivity|].
  eapply (related_runtime_is_capability Examples.db1_on_vm1 _ _ "ip" (VStr "10.0.0.1")).
  - reflexivity.
  - reflexivity.
  - reflexivity.
Defined.

(** ** CloudifyContext: the storage over any sequence of calls *)

(** One step of the proof that a computation relates every state to the
    state it leaves. *)
Ltac relates_by_parts :=
  first
    [ apply relates_bind; [apply _| |intros ?]
    | solve [apply relates_ret; apply _]
    | solve [apply relates_raise; apply _]
    | solve [apply relates_lift; apply _]
    | solve [apply relates_read; apply _]
    | match goal with
      | |- relates _ (match ?x with _ => _ end) => destruct x
      end
    | by (intros ?; repeat split) ].

Section storage.

Context {B : Type} `{!Manager B}.
Import CloudifyContext.

Implicit Types (s : State B) (key : string) (v : value).

#[local] Instance same_storage_view_preorder : PreOrder (@same_storage_view B).
Proof.
  split.
  - by intros s.
  - intros s1 s2 s3 (? & ? & ?) (? & ? & ?). repeat split; congruence.
Qed.

Lemma call_same_storage_view (c : call) :
  touches_node_state c = false -> forall s, same_storage_view s (step s c).
Proof.
  intros Htouch.
  destruct c; try discriminate Htouch; unfold step, after;
    match goal with |- forall s, _ _ (?m s).2 => change (relates same_storage_view m) end.
  all: unfold_methods; cbv zeta; repeat relates_by_parts.
Qed.

(** What a read or a write of the node state does to the state: nothing;
    or it replaces the cached node state; or, with nothing cached, it makes
    the one [get_node_state] call for the node and caches a node state. *)
Lemma step_node_state s (c : call) :
  touches_node_state c = true -> c <> CallUpdate ->
  step s c = s \/
  (exists node_state' : NodeState.t,
      is_Some (_node_state (self s)) /\
      step s c = mkState (with_node_state (Some node_state') (self s))
                         (storage s) (calls s) (loggers s) (next_handler_id s)) \/
  (exists (n : string) (node_state' : NodeState.t),
      Payload.node_id (_context (self s)) = Some n /\
      _node_state (self s) = None /\
      step s c = mkState (with_node_state (Some node_state') (self s))
                         (storage s) (calls s ++ [GetNodeState n])
                         (loggers s) (next_handler_id s)).
Proof.
  intros Htouch Hupdate.
  destruct c; try discriminate Htouch; try done; clear Htouch Hupdate.
  all: destruct (Payload.node_properties (_context (self s))) as [props|] eqn:Hprops.
  all: destruct (Payload.node_id (_context (self s))) as [n|] eqn:Hnode.
  all: destruct (_node_state (self s)) as [cached_|] eqn:Hcache.
  all: run_method.
  all: repeat (progress (rewrite ?Hprops, ?Hnode, ?Hcache; cbn)).
  all: try (destruct (has_key _ _); cbn).
  all: repeat (progress (rewrite ?Hprops, ?Hnode, ?Hcache; cbn)).
  all: try (by left).
  all: try (right; left; eexists; split; [by eauto|]; reflexivity).
  all: try (right; right; eexists _, _; split; [by eauto|]; split; [done|]; reflexivity).
Qed.

(** What any call does to the storage and the cache: nothing; or one
    [get_node_state] for the node, with nothing cached before and a node
    state cached after; or, for [update] with a node state cached, one
    [update_node_state] of that node state, with nothing cached after. *)
Lemma step_storage_cases s (c : call) :
  (calls (step s c) = calls s /\ storage (step s c) = storage s /\
   cached (step s c) = cached s) \/
  (exists n : string,
      Payload.node_id (_context (self s)) = Some n /\ cached s = false /\
      calls (step s c) = calls s ++ [GetNodeState n] /\
      storage (step s c) = storage s /\ cached (step s c) = true) \/
  (c = CallUpdate /\
   exists node_state : NodeState.t,
     _node_state (self s) = Some node_state /\
     calls (step s c) = calls s ++ [UpdateNodeState node_state] /\
     storage (step s c) = store_node_state (storage s) node_state /\
     cached (step s c) = false).
Proof.
  destruct (touches_node_state c) eqn:Htouch.
  - destruct (decide (c = CallUpdate)) as [->|Hupdate].
    + unfold step, after.
      destruct (_node_state (self s)) as [node_state|] eqn:Hcache.
      * right. right. split; [done|]. exists node_state.
        by rewrite (update_cached s node_state Hcache).
      * left. by rewrite (update_not_cached s Hcache).
    + destruct (step_node_state s c Htouch Hupdate)
        as [->|[(node_state' & Hsome & ->)|(n & node_state' & Hnode & Hnone & ->)]].
      * by left.
      * left. unfold cached. simpl. repeat split.
        by rewrite !bool_decide_eq_true_2.
      * right. left. exists n. unfold cached. simpl. rewrite Hnone.
        split; [done|]. split; [apply bool_decide_eq_false_2; by intros [? ?]|].
        done.
  - left. destruct (call_same_storage_view c Htouch s) as (Hcalls & Hstorage & Hcache).
    unfold cached. by rewrite Hcache.
Qed.

Lemma alternates_app_one (expect_get : bool) (trace : list storage_call)
    (c : storage_call) :
  expect_get = is_get_node_state c ->
  alternates (negb expect_get) trace = true ->
  alternates expect_get (c :: trace) = true.
Proof. intros -> Htrace. destruct c; simpl in *; done. Qed.

(** X11: whatever a task calls on its context, and whatever the calls
    return, the storage sees gets and updates take turns: a
    [get_node_state] only with nothing cached, an [update_node_state] only
    with a node state cached. So between two flushes the node state is
    fetched at most once, nothing is flushed that was not fetched, every
    get is for the node identifier of the payload, and a node state is
    cached at the end exactly when the last storage call was a get. *)
Theorem storage_calls_alternate (cs : list call) s :
  let trace := calls_since s (run cs s) in
  calls (run cs s) = calls s ++ trace /\
  alternates (negb (cached s)) trace = true /\
  cached (run cs s) = cached_after (cached s) trace /\
  Forall (fun c => forall n, c = GetNodeState n ->
                             Payload.node_id (_context (self s)) = Some n) trace.
Proof.
  intros trace.
  assert (exists tr,
             calls (run cs s) = calls s ++ tr /\
             alternates (negb (cached s)) tr = true /\
             cached (run cs s) = cached_after (cached s) tr /\
             Forall (fun c => forall n, c = GetNodeState n ->
                                        Payload.node_id (_context (self s)) = Some n) tr)
    as (tr & Hcalls & Hrest).
  { clear trace. revert s. induction cs as [|c cs IH]; intros s.
    - exists []. simpl. by rewrite app_nil_r.
    - simpl. destruct (IH (step s c)) as (tr & Hcalls & Halt & Hcached & Hall).
      destruct (step_same_views s c) as (Hctx & _ & _). rewrite Hctx in Hall.
      destruct (step_storage_cases s c)
        as [(Hc & _ & Hk)|[(n & Hnode & Hk & Hc & _ & Hk')|(_ & ns & Hns & Hc & _ & Hk')]].
      + exists tr. rewrite Hcalls, Hc, <- Hk. done.
      + exists (GetNodeState n :: tr).
        rewrite Hcalls, Hc, <- app_assoc, Hk. rewrite Hk' in Halt, Hcached.
        repeat split; try done.
        constructor; [|done]. by intros ? [= <-].
      + assert (cached s = true) as Hk
          by (unfold cached; rewrite Hns; by apply bool_decide_eq_true_2).
        exists (UpdateNodeState ns :: tr).
        rewrite Hcalls, Hc, <- app_assoc, Hk. rewrite Hk' in Halt, Hcached.
        repeat split; try done.
        constructor; [|done]. by intros ? [=]. }
  subst trace. by rewrite (calls_since_app s (run cs s) tr Hcalls).
Qed.

(** X12: only [update] writes to the storage: after any sequence of calls
    without an [update], the storage is what it was and no
    [update_node_state] call was made, whatever was set in between. *)
Theorem storage_written_by_update_only (cs : list call) s :
  CallUpdate ∉ cs ->
  storage (run cs s) = storage s /\
  Forall (fun c => is_update_node_state c = false) (calls_since s (run cs s)).
Proof.
  intros Hnone.
  assert (exists tr,
             calls (run cs s) = calls s ++ tr /\
             storage (run cs s) = storage s /\
             Forall (fun c => is_update_node_state c = false) tr)
    as (tr & Hcalls & Hstorage & Hall).
  { revert s. induction cs as [|c cs IH]; intros s.
    - exists []. simpl. by rewrite app_nil_r.
    - apply not_elem_of_cons in Hnone as [Hc Hnone].
      simpl. destruct (IH Hnone (step s c)) as (tr & Hcalls & Hstorage & Hall).
      destruct (step_storage_cases s c)
        as [(Hcs & Hst & _)|[(n & _ & _ & Hcs & Hst & _)|(-> & _)]]; [..|done].
      + exists tr. by rewrite Hcalls, Hstorage, Hcs, Hst.
      + exists (GetNodeState n :: tr).
        rewrite Hcalls, Hstorage, Hcs, Hst, <- app_assoc.
        repeat split. by constructor. }
  split; [done|]. by rewrite (calls_since_app s (run cs s) tr Hcalls).
Qed.

(** X13: a context without a node identifier never reaches the storage:
    after any sequence of calls no storage call was made, the storage is
    unchanged, no node state is cached and the lifecycle flag is what it
    was. *)
Theorem no_node_no_storage (cs : list call) s :
  Payload.node_id (_context (self s)) = None ->
  _node_state (self s) = None ->
  calls (run cs s) = calls s /\
  storage (run cs s) = storage s /\
  _node_state (self (run cs s)) = None /\
  _lifecycle_state (self (run cs s)) = _lifecycle_state (self s).
Proof.
  revert s. induction cs as [|c cs IH]; intros s Hnode Hcache; [done|].
  simpl.
  destruct (step_same_views s c) as (Hctx & _ & _).
  assert (cached s = false) as Hk
    by (unfold cached; rewrite Hcache; apply bool_decide_eq_false_2; by intros [? ?]).
  assert (calls (step s c) = calls s /\ storage (step s c) = storage s /\
          _node_state (self (step s c)) = None) as (Hcalls & Hstorage & Hcache').
  { destruct (step_storage_cases s c)
      as [(Hc & Hst & Hk')|[(n & Hn & _)|(_ & ns & Hns & _)]]; [|congruence..].
    repeat split; try done.
    rewrite Hk in Hk'. unfold cached in Hk'.
    apply bool_decide_eq_false in Hk'.
    destruct (_node_state (self (step s c))); [|done]. exfalso. eauto. }
  assert (_lifecycle_state (self (step s c)) = _lifecycle_state (self s)) as Hflag.
  { destruct (decide (c = CallSetStarted)) as [->|Hstarted];
      [|destruct (decide (c = CallSetStopped)) as [->|Hstopped]].
    - unfold step, after. by rewrite (set_started_without_node s Hnode).
    - unfold step, after. by rewrite (set_stopped_without_node s Hnode).
    - by destruct (call_same_attributes c Hstarted Hstopped s) as (_ & _ & _ & ?). }
  destruct (IH (step s c)) as (-> & -> & -> & ->); [by rewrite Hctx|done|done].
Qed.

End storage.

Section storage_examples.

Import CloudifyContext.

Lemma storage_written_by_update_only_witness :
  let s := Examples.fresh_state Examples.db1 ∅ 0 in
  let s' := run [CallSetItem "host" (VStr "h"); CallRuntimeProperties; CallSetStarted] s in
  storage s' = ∅ /\
  Forall (fun c => is_update_node_state c = false) (calls_since s s').
Proof.
  intros s s'.
  apply (storage_written_by_update_only
           [CallSetItem "host" (VStr "h"); CallRuntimeProperties; CallSetStarted] s).
  repeat (apply not_elem_of_cons; split; [discriminate|]). apply not_elem_of_nil.
Defined.

Lemma no_node_no_storage_witness :
  let s := Examples.fresh_state Examples.no_node ∅ 0 in
  let s' := run [CallSetItem "host" (VStr "h"); CallSetStarted; CallUpdate;
                 CallGetItem "host"] s in
  calls s' = [] /\ storage s' = ∅ /\
  _node_state (self s') = None /\ _lifecycle_state (self s') = None.
Proof.
  intros s s'.
  apply (no_node_no_storage
           [CallSetItem "host" (VStr "h"); CallSetStarted; CallUpdate; CallGetItem "host"]
           s); reflexivity.
Defined.

End storage_examples.

(** ** CloudifyContext: indexed access, writes and flushes *)

Section indexed.

Context {B : Type} `{!Manager B}.
Import CloudifyContext.

Implicit Types (s : State B) (key : string) (v : value).

(** The indexed set on a context with a node. *)
Lemma setitem_with_node s key v (n : string) :
  Payload.node_id (_context (self s)) = Some n ->
  __setitem__ key v s
  = (Ok tt,
     mkState
       (with_node_state
          (Some (NodeState.__setitem__
                   (match _node_state (self s) with
                    | Some node_state => node_state
                    | None => stored_node_state (storage s) n
                    end) key v))
          (self s))
       (storage s)
       (calls s ++ match _node_state (self s) with
                   | Some _ => []
                   | None => [GetNodeState n]
                   end)
       (loggers s) (next_handler_id s)).
Proof.
  intros Hnode. destruct (_node_state (self s)) as [node_state|] eqn:Hcache.
  - run_method. rewrite Hnode. cbn. rewrite Hcache. cbn. rewrite Hcache. cbn.
    by rewrite app_nil_r.
  - run_method. rewrite Hnode. cbn. by rewrite Hcache.
Qed.

(** The indexed get and the membership test with a node state cached. *)
Lemma getitem_cached s key (n : string) (node_state : NodeState.t) :
  Payload.node_id (_context (self s)) = Some n ->
  _node_state (self s) = Some node_state ->
  __getitem__ key s
  = (match Payload.node_properties (_context (self s)) with
     | Some props =>
         match props !! key with
         | Some v => Ok v
         | None => NodeState.__getitem__ node_state key
         end
     | None => NodeState.__getitem__ node_state key
     end, s).
Proof.
  intros Hnode Hcache. run_method.
  destruct (Payload.node_properties (_context (self s))) as [props|]; cbn.
  - unfold has_key, subscript. destruct (props !! key) as [w|]; cbn; [done|].
    by rewrite Hnode; cbn; rewrite Hcache; cbn; rewrite Hcache.
  - by rewrite Hnode; cbn; rewrite Hcache; cbn; rewrite Hcache.
Qed.

Lemma contains_cached s key (n : string) (node_state : NodeState.t) :
  Payload.node_id (_context (self s)) = Some n ->
  _node_state (self s) = Some node_state ->
  __contains__ key s
  = (Ok (match Payload.node_properties (_context (self s)) with
         | Some props =>
             match props !! key with
             | Some _ => true
             | None => NodeState.__contains__ node_state key
             end
         | None => NodeState.__contains__ node_state key
         end), s).
Proof.
  intros Hnode Hcache. run_method.
  destruct (Payload.node_properties (_context (self s))) as [props|]; cbn.
  - unfold has_key. destruct (props !! key) as [w|]; cbn; [done|].
    by rewrite Hnode; cbn; rewrite Hcache; cbn; rewrite Hcache.
  - by rewrite Hnode; cbn; rewrite Hcache; cbn; rewrite Hcache.
Qed.

(** X14: reading back a write. On a context with a node, after
    [ctx[key] = v]: [runtime_properties] is the node's mapping with [v]
    under [key] and every other key as before; [key in ctx] is true; and
    [ctx[key]] returns [v], unless the key is a declared property, in which
    case it still returns the declared value and the written value can be
    read from [runtime_properties] only. None of these reads changes the
    state or calls the storage. *)
Theorem setitem_then_read s key v (n : string) :
  Payload.node_id (_context (self s)) = Some n ->
  let before :=
    NodeState.runtime_properties
      (match _node_state (self s) with
       | Some node_state => node_state
       | None => stored_node_state (storage s) n
       end) in
  let s' := after (__setitem__ key v) s in
  runtime_properties s' = (Ok (<[key := v]> before), s') /\
  __contains__ key s' = (Ok true, s') /\
  __getitem__ key s'
  = (Ok (match Payload.node_properties (_context (self s)) with
         | Some props =>
             match props !! key with
             | Some declared => declared
             | None => v
             end
         | None => v
         end), s').
Proof.
  intros Hnode before s'.
  pose proof (setitem_with_node s key v n Hnode) as Hset.
  assert (Payload.node_id (_context (self s')) = Some n) as Hnode'
    by (subst s'; unfold after; by rewrite Hset).
  assert (_context (self s') = _context (self s)) as Hctx
    by (subst s'; unfold after; by rewrite Hset).
  assert (exists node_state',
             _node_state (self s') = Some node_state' /\
             NodeState.runtime_properties node_state' = <[key := v]> before)
    as (node_state' & Hcache' & Hruntime).
  { subst s'. unfold after. rewrite Hset. simpl. eauto. }
  split; [|split].
  - rewrite (runtime_properties_cached s' n node_state' Hnode' Hcache').
    by rewrite Hruntime.
  - rewrite (contains_cached s' key n node_state' Hnode' Hcache'), Hctx.
    unfold NodeState.__contains__, has_key. rewrite Hruntime, lookup_insert_eq.
    rewrite bool_decide_eq_true_2 by eauto.
    by destruct (Payload.node_properties _) as [props|]; [destruct (props !! key)|].
  - rewrite (getitem_cached s' key n node_state' Hnode' Hcache'), Hctx.
    unfold NodeState.__getitem__, subscript. rewrite Hruntime, lookup_insert_eq.
    by destruct (Payload.node_properties _) as [props|]; [destruct (props !! key)|].
Qed.

(** X15: a write that is flushed is read back from the storage. On a
    context with a node and a storage that returns for the node what was
    stored last, after [ctx[key] = v] and [ctx.update()], reading an
    undeclared [key] fetches the node state again and returns [v]; the
    storage has then seen the fetch of the first load-cycle if nothing was
    cached, the update with the written node state, and the new fetch. *)
Theorem setitem_update_getitem s key v (n : string) :
  Payload.node_id (_context (self s)) = Some n ->
  (forall props, Payload.node_properties (_context (self s)) = Some props ->
                 props !! key = None) ->
  let written :=
    NodeState.__setitem__
      (match _node_state (self s) with
       | Some node_state => node_state
       | None => stored_node_state (storage s) n
       end) key v in
  stored_node_state (store_node_state (storage s) written) n = written ->
  let flushed := run [CallSetItem key v; CallUpdate] s in
  outcome (__getitem__ key) flushed = Ok v /\
  calls_since s (after (__getitem__ key) flushed)
  = match _node_state (self s) with
    | Some _ => []
    | None => [GetNodeState n]
    end ++ [UpdateNodeState written; GetNodeState n].
Proof.
  intros Hnode Hdeclared written Hlaw flushed.
  pose proof (setitem_with_node s key v n Hnode) as Hset. fold written in Hset.
  set (extra := match _node_state (self s) with
                | Some _ => []
                | None => [GetNodeState n]
                end) in *.
  assert (flushed
          = mkState (with_node_state None (self s))
                    (store_node_state (storage s) written)
                    (calls s ++ extra ++ [UpdateNodeState written])
                    (loggers s) (next_handler_id s)) as Hflushed.
  { subst flushed. simpl. unfold after at 2. rewrite Hset. simpl.
    unfold after.
    rewrite (update_cached
               (mkState (with_node_state (Some written) (self s)) (storage s)
                        (calls s ++ extra) (loggers s) (next_handler_id s))
               written eq_refl).
    simpl. by rewrite <- app_assoc. }
  clearbody flushed.
  assert (in_properties (Payload.node_properties (_context (self flushed))) key = false)
    as Hmiss.
  { rewrite Hflushed. simpl.
    destruct (Payload.node_properties (_context (self s))) as [props|] eqn:Hprops;
      [|done].
    simpl. unfold has_key. rewrite (Hdeclared props eq_refl).
    apply bool_decide_eq_false_2. by intros [? ?]. }
  assert (__getitem__ key flushed
          = (Ok v,
             mkState (with_node_state (Some written) (self s))
                     (store_node_state (storage s) written)
                     (calls s ++ extra ++ [UpdateNodeState written; GetNodeState n])
                     (loggers s) (next_handler_id s))) as Hget.
  { unfold __getitem__, properties. unfold_monad. cbn. rewrite Hmiss.
    rewrite (fetch_first flushed n); [|by rewrite Hflushed..].
    unfold the_node_state. unfold_monad. cbn.
    rewrite Hflushed. cbn. rewrite Hlaw.
    unfold NodeState.__getitem__, subscript, written. simpl.
    rewrite lookup_insert_eq. simpl.
    by rewrite <- !app_assoc. }
  unfold outcome, after. rewrite Hget. split; [done|].
  by apply calls_since_app.
Qed.

(** X16: successive writes and flushes. Of two writes of the same key the
    later one wins and the earlier leaves no trace; writes of two
    different keys give the same state in either order; and a second flush
    right after a flush does nothing. *)
Theorem setitem_update_compose s (k1 k2 : string) (v1 v2 : value) (n : string) :
  Payload.node_id (_context (self s)) = Some n ->
  run [CallSetItem k1 v1; CallSetItem k1 v2] s = run [CallSetItem k1 v2] s /\
  (k1 <> k2 ->
   run [CallSetItem k1 v1; CallSetItem k2 v2] s
   = run [CallSetItem k2 v2; CallSetItem k1 v1] s) /\
  run [CallUpdate; CallUpdate] s = run [CallUpdate] s.
Proof.
  intros Hnode.
  assert (forall k v,
             Payload.node_id (_context (self (after (__setitem__ k v) s))) = Some n)
    as Hnode'
    by (intros k v; unfold after; by rewrite (setitem_with_node s k v n Hnode)).
  split; [|split].
  - simpl. unfold after at 1.
    rewrite (setitem_with_node _ k1 v2 n (Hnode' k1 v1)).
    unfold after. rewrite !(setitem_with_node s _ _ n Hnode). simpl.
    unfold NodeState.__setitem__. simpl. rewrite insert_insert_eq.
    by rewrite app_nil_r.
  - intros Hne. simpl. unfold after at 1 3.
    rewrite (setitem_with_node _ k2 v2 n (Hnode' k1 v1)).
    rewrite (setitem_with_node _ k1 v1 n (Hnode' k2 v2)).
    unfold after. rewrite !(setitem_with_node s _ _ n Hnode). simpl.
    unfold NodeState.__setitem__. simpl.
    by rewrite (insert_insert_ne _ k1 k2).
  - simpl. unfold after at 1.
    rewrite (update_not_cached (after update s)); [done|].
    unfold after. destruct (_node_state (self s)) as [node_state|] eqn:Hcache.
    + by rewrite (update_cached s node_state Hcache).
    + by rewrite (update_not_cached s Hcache).
Qed.

(** X17: on a context membership and indexed get agree, on the outcome
    and on the state they leave: [key in ctx] is true exactly when
    [ctx[key]] returns, false exactly when [ctx[key]] fails with KeyError
    on the key, and it raises exactly when [ctx[key]] raises the same
    RuntimeError for the missing node. *)
Theorem context_membership_agrees s key :
  after (__contains__ key) s = after (__getitem__ key) s /\
  (outcome (__contains__ key) s = Ok true <->
   exists v, outcome (__getitem__ key) s = Ok v) /\
  (outcome (__contains__ key) s = Ok false <->
   outcome (__getitem__ key) s = Raise (KeyNotFound key)) /\
  (forall e,
      outcome (__contains__ key) s = Raise e <->
      outcome (__getitem__ key) s = Raise e /\ e = RuntimeError MsgNoNodeState).
Proof.
  destruct (Payload.node_properties (_context (self s))) as [props|] eqn:Hprops.
  all: destruct (Payload.node_id (_context (self s))) as [n|] eqn:Hnode.
  all: destruct (_node_state (self s)) as [node_state|] eqn:Hcache.
  all: try destruct (props !! key) as [declared|] eqn:Hdeclared.
  all: run_method; unfold has_key, subscript, NodeState.__contains__,
         NodeState.__getitem__, has_key, subscript.
  all: repeat (progress (rewrite ?Hprops, ?Hnode, ?Hcache; cbn;
                         unfold has_key, subscript; rewrite ?Hdeclared; cbn)).
  all: try match goal with
           | |- context [NodeState.runtime_properties ?x !! ?k] =>
               destruct (NodeState.runtime_properties x !! k); cbn
           end.
  all: split; [done|]; split; [|split].
  all: try (split; [by eauto|by intros [? ?]]).
  all: try (split; by eauto).
  all: try done.
  all: intros e; split; [by intros [= <-]|by intros [? ->]].
Qed.

End indexed.

(** ** CloudifyContext: what stays as it is *)

Section stable.

Context {B : Type} `{!Manager B}.
Import CloudifyContext.

Implicit Types (s : State B).

(** X18: the read-only accessors are constant over the life of a context:
    after any sequence of calls, whatever they return, the node identifier,
    the declared properties, the task name, the capabilities object and the
    related view are what they were at the start. *)
Theorem accessors_stable (cs : list call) s :
  outcome node_id (run cs s) = outcome node_id s /\
  outcome properties (run cs s) = outcome properties s /\
  outcome task_name (run cs s) = outcome task_name s /\
  outcome capabilities (run cs s) = outcome capabilities s /\
  outcome related (run cs s) = outcome related s.
Proof.
  destruct (run_same_views cs s) as (Hctx & Hcaps & Hrelated).
  run_method. by rewrite Hctx, Hcaps, Hrelated.
Qed.

Lemma step_last_flag s (c : call) (n : string) :
  Payload.node_id (_context (self s)) = Some n ->
  _lifecycle_state (self (step s c)) = last_flag (_lifecycle_state (self s)) [c].
Proof.
  intros Hnode.
  destruct (decide (c = CallSetStarted)) as [->|Hstarted];
    [|destruct (decide (c = CallSetStopped)) as [->|Hstopped]].
  - unfold step, after. by rewrite (set_started_with_node s n Hnode).
  - unfold step, after. by rewrite (set_stopped_with_node s n Hnode).
  - destruct (call_same_attributes c Hstarted Hstopped s) as (_ & _ & _ & ->).
    by destruct c.
Qed.

(** X19: on a context with a node the lifecycle flag after any sequence of
    calls is the value of the last setter among them, [started] or
    [stopped], and the flag as it was when no setter was called: no other
    call, failed or not, touches the flag. *)
Theorem lifecycle_last_setter (cs : list call) s (n : string) :
  Payload.node_id (_context (self s)) = Some n ->
  _lifecycle_state (self (run cs s)) = last_flag (_lifecycle_state (self s)) cs.
Proof.
  revert s. induction cs as [|c cs IH]; intros s Hnode; [done|].
  simpl. rewrite IH.
  - by rewrite (step_last_flag s c n Hnode).
  - destruct (step_same_views s c) as (-> & _). done.
Qed.

End stable.

(** ** CloudifyContext: the logger over several accesses and contexts *)

(** The removal loop changes the handlers only. *)
Lemma remove_handlers_loop_attributes (i : nat) (logger : logging.Logger) :
  logging.level (remove_handlers_loop i logger) = logging.level logger /\
  logging.propagate (remove_handlers_loop i logger) = logging.propagate logger.
Proof.
  funelim (remove_handlers_loop i logger); [|done].
  destruct H as [-> ->]. unfold logging.removeHandler. by case_decide.
Qed.

(** The loop started at an index of a list without repetition keeps what
    is before the index and, from the index on, every second handler. *)
Lemma remove_handlers_loop_from (i : nat) (logger : logging.Logger) :
  NoDup (logging.handlers logger) ->
  logging.handlers (remove_handlers_loop i logger)
  = take i (logging.handlers logger) ++ every_second (drop i (logging.handlers logger)).
Proof.
  funelim (remove_handlers_loop i logger); intros Hnodup.
  - pose proof (removeHandler_at logger i h Hnodup E) as Hdelete.
    pose proof (lookup_lt_Some _ _ _ E) as Hlt.
    rewrite H by (rewrite Hdelete; eapply sublist_NoDup; [done|apply sublist_delete]).
    rewrite Hdelete, delete_take_drop.
    rewrite (drop_S _ _ _ E).
    assert (length (take i (logging.handlers logger)) = i) as Hlen
      by (rewrite length_take; lia).
    set (before := take i (logging.handlers logger)) in *.
    set (rest := drop (S i) (logging.handlers logger)).
    replace (S i) with (i + 1) by lia.
    rewrite (take_app_add' before rest i 1), (drop_app_add' before rest i 1) by done.
    rewrite <- app_assoc. f_equal.
    by destruct rest.
  - pose proof (lookup_ge_None_1 _ _ e) as Hge.
    by rewrite take_ge, drop_ge, app_nil_r.
Qed.

Lemma elem_of_every_second {A : Type} (x : A) (l : list A) :
  x ∈ every_second l -> x ∈ l.
Proof.
  assert (forall l : list A,
             (x ∈ every_second l -> x ∈ l) /\
             (forall y, x ∈ every_second (y :: l) -> x ∈ y :: l)) as Hboth.
  { clear l. induction l as [|z l [IH1 IH2]]; simpl.
    - split; [done|]. intros y Hin. by apply elem_of_nil in Hin.
    - split; [by apply IH2|].
      intros y Hin. apply elem_of_cons in Hin as [->|Hin]; [set_solver|].
      apply elem_of_cons. right. apply elem_of_cons. right. by apply IH1. }
  apply Hboth.
Qed.

(** The logger that the wiring leaves, for a logger whose handlers do not
    repeat and do not include the new handler. *)
Lemma wired_handlers (prior : logging.Logger) (h : logging.Handler) :
  NoDup (logging.handlers prior) ->
  h ∉ logging.handlers prior ->
  logging.addHandler h
    (logging.set_propagate true
       (remove_handlers_loop 0 (logging.setLevel logging.INFO prior)))
  = logging.mk_logger logging.INFO (every_second (logging.handlers prior) ++ [h]) true.
Proof.
  intros Hnodup Hfresh.
  pose proof (remove_handlers_loop_from 0 (logging.setLevel logging.INFO prior) Hnodup)
    as Hhandlers.
  pose proof (remove_handlers_loop_attributes 0 (logging.setLevel logging.INFO prior))
    as [Hlevel _].
  simpl in Hhandlers, Hlevel. rewrite drop_0 in Hhandlers.
  unfold logging.addHandler, logging.set_propagate. simpl.
  rewrite Hhandlers, Hlevel.
  rewrite decide_False; [done|].
  intros Hin. apply Hfresh. by apply elem_of_every_second.
Qed.

Section wiring.

Context {B : Type} `{!Manager B}.
Import CloudifyContext.

Implicit Types (s : State B).

#[local] Instance same_logging_preorder : PreOrder (@same_logging B).
Proof.
  split.
  - by intros s.
  - intros s1 s2 s3 (? & ? & ?) (? & ? & ?). repeat split; congruence.
Qed.

Lemma call_same_logging (c : call) :
  c <> CallLogger -> forall s, same_logging s (step s c).
Proof.
  intros Hlogger.
  destruct c; try done; unfold step, after;
    match goal with |- forall s, _ _ (?m s).2 => change (relates same_logging m) end.
  all: unfold_methods; cbv zeta; repeat relates_by_parts.
Qed.

Lemma logger_first_identity s :
  _logger (self s) = None ->
  next_handler_id (after logger s) = S (next_handler_id s).
Proof.
  intros Hnone. unfold after, logger, _init_cloudify_logger, task_name.
  unfold_monad. cbn. by rewrite Hnone.
Qed.

(** X20: the first access to [logger] on a context returns the logger named
    after the task, or [cloudify_plugin] when the payload has no task
    name, and leaves it at level INFO, with propagation on and with the
    new handler of the context attached; no other logger is touched. A
    second access returns the same logger and changes nothing. *)
Theorem logger_wiring s :
  _logger (self s) = None ->
  let s' := after logger s in
  outcome logger s = Ok (Some (logger_name s)) /\
  (exists wired,
      loggers s' !! logger_name s = Some wired /\
      logging.level wired = logging.INFO /\
      logging.propagate wired = true /\
      context_handler s ∈ logging.handlers wired) /\
  (forall other, other <> logger_name s -> loggers s' !! other = loggers s !! other) /\
  logger s' = (Ok (Some (logger_name s)), s').
Proof.
  intros Hnone s'.
  destruct (logger_first s Hnone) as (Hout & Hlogger & Hwired & Hothers).
  split; [done|]. split; [|split; [done|]].
  - eexists. split; [exact Hwired|].
    match goal with
    | |- context [remove_handlers_loop 0 ?l] =>
        pose proof (remove_handlers_loop_attributes 0 l) as [Hlevel _]
    end.
    unfold logging.addHandler, logging.set_propagate.
    case_decide; simpl; repeat split; try done.
    apply elem_of_app. right. set_solver.
  - by apply logger_once.
Qed.

(** X21: which handlers the wiring leaves. When the logger named after the
    task has handlers that are all different and the new handler is not
    among them, the first access to [logger] leaves the logger with every
    second of the prior handlers (the second, the fourth, ...) followed by
    the new handler: prior handlers are all detached only when there is at
    most one of them. *)
Theorem logger_wiring_handlers s (prior : logging.Logger) :
  _logger (self s) = None ->
  loggers s !! logger_name s = Some prior ->
  NoDup (logging.handlers prior) ->
  context_handler s ∉ logging.handlers prior ->
  loggers (after logger s) !! logger_name s
  = Some (logging.mk_logger logging.INFO
            (every_second (logging.handlers prior) ++ [context_handler s]) true) /\
  (length (logging.handlers prior) <= 1 ->
   loggers (after logger s) !! logger_name s
   = Some (logging.mk_logger logging.INFO [context_handler s] true)).
Proof.
  intros Hnone Hprior Hnodup Hfresh.
  destruct (logger_first s Hnone) as (_ & _ & Hwired & _).
  rewrite Hprior in Hwired.
  rewrite (wired_handlers prior (context_handler s) Hnodup Hfresh) in Hwired.
  split; [done|].
  intros Hlen. rewrite Hwired.
  by destruct (logging.handlers prior) as [|h1 [|h2 hs]]; [..|simpl in Hlen; lia].
Qed.

(** X22: two contexts, one after the other, with the same task name. When
    no logger of that name exists before the first access of the first
    context, the first access of the second context leaves the logger with
    the handler of the second context only: the handler of the first
    context is detached. *)
Theorem logger_second_context s (o : t) :
  _logger (self s) = None ->
  loggers s !! logger_name s = None ->
  _logger o = None ->
  Payload.task_name (_context o) = Payload.task_name (_context (self s)) ->
  let second := next_context o (after logger s) in
  loggers (after logger second) !! logger_name s
  = Some (logging.mk_logger logging.INFO [context_handler second] true) /\
  logging.handler_id (context_handler second) = S (next_handler_id s).
Proof.
  intros Hnone Hmissing Hnone' Htask second.
  destruct (logger_first s Hnone) as (_ & _ & Hwired & _).
  rewrite Hmissing in Hwired.
  rewrite (wired_handlers logging.new_logger (context_handler s)) in Hwired;
    [|constructor|apply not_elem_of_nil].
  simpl in Hwired.
  assert (logger_name second = logger_name s) as Hname
    by (unfold logger_name, second; simpl; by rewrite Htask).
  assert (next_handler_id second = S (next_handler_id s)) as Hid
    by (unfold second; simpl; by apply logger_first_identity).
  destruct (logger_first second Hnone') as (_ & _ & Hwired' & _).
  rewrite Hname in Hwired'.
  replace (loggers second) with (loggers (after logger s)) in Hwired' by done.
  rewrite Hwired in Hwired'.
  rewrite (wired_handlers _ (context_handler second)) in Hwired'; simpl.
  - by rewrite Hwired'.
  - apply NoDup_singleton.
  - apply not_elem_of_cons. split; [|apply not_elem_of_nil].
    unfold context_handler. rewrite Hid. intros [= Heq]. lia.
Qed.

(** X23: the logger is wired at most once for a context, whatever is
    called on it. Once the context has its logger, no sequence of calls
    changes the loggers, creates a handler or replaces the logger of the
    context. Before that, calls other than [logger] leave all three alone,
    and a sequence that does access [logger] creates exactly one handler
    and leaves the context with the logger named after the task. *)
Theorem logger_wired_once (cs : list call) s :
  (is_Some (_logger (self s)) -> same_logging s (run cs s)) /\
  (CallLogger ∉ cs -> same_logging s (run cs s)) /\
  (_logger (self s) = None -> CallLogger ∈ cs ->
   next_handler_id (run cs s) = S (next_handler_id s) /\
   _logger (self (run cs s)) = Some (logger_name s)).
Proof.
  assert (forall cs s, is_Some (_logger (self s)) -> same_logging s (run cs s))
    as Hsome.
  { clear cs s. intros cs. induction cs as [|c cs IH]; intros s Hlogger; [done|].
    simpl.
    assert (same_logging s (step s c)) as Hstep.
    { destruct (decide (c = CallLogger)) as [->|Hc].
      - destruct Hlogger as [name Hlogger]. unfold step, after.
        by rewrite (logger_once s name Hlogger).
      - by apply call_same_logging. }
    transitivity (step s c); [done|].
    apply IH. destruct Hstep as (_ & _ & ->). done. }
  split; [by apply Hsome|]. split.
  - revert s. induction cs as [|c cs IH]; intros s Hnone; [done|].
    apply not_elem_of_cons in Hnone as [Hc Hnone]. simpl.
    transitivity (step s c); [by apply call_same_logging|by apply IH].
  - revert s. induction cs as [|c cs IH]; intros s Hnone Hin.
    + by apply elem_of_nil in Hin.
    + simpl. destruct (decide (c = CallLogger)) as [->|Hc].
      * destruct (logger_first s Hnone) as (_ & Hlogger & _).
        destruct (Hsome cs (step s CallLogger)) as (_ & -> & ->);
          [by (simpl; rewrite Hlogger)|].
        split; [by apply logger_first_identity|done].
      * apply elem_of_cons in Hin as [?|Hin]; [congruence|].
        destruct (call_same_logging c Hc s) as (_ & Hid & Hlogger).
        destruct (step_same_views s c) as (Hctx & _).
        destruct (IH (step s c)) as [-> ->]; [congruence|done|].
        unfold logger_name. by rewrite Hid, Hctx.
Qed.

End wiring.

(** ** CloudifyContext: the text of a context *)

Section text.

Context {B : Type} `{!Manager B}.
Import CloudifyContext.

Variables (str_name : option string -> string) (str_properties : option dict -> string)
  (str_dict : dict -> string) (str_capabilities : capabilities_dict -> string).

(** X24: [str(ctx)] reads the runtime properties, so it is not a pure
    read. On a context without a node identifier it raises the
    RuntimeError of fetch-if-needed instead of returning a text. On a
    context with a node it returns a text and leaves the state that an
    access to [runtime_properties] leaves: with nothing cached it calls
    [get_node_state] once and caches the result. *)
Theorem str_reads_runtime_properties (s : State B) :
  (Payload.node_id (_context (self s)) = None ->
   __str__ str_name str_properties str_dict str_capabilities s
   = (Raise (RuntimeError MsgNoNodeState), s)) /\
  (forall n,
      Payload.node_id (_context (self s)) = Some n ->
      (exists text,
          outcome (__str__ str_name str_properties str_dict str_capabilities) s
          = Ok text) /\
      after (__str__ str_name str_properties str_dict str_capabilities) s
      = after runtime_properties s /\
      calls_since s (after (__str__ str_name str_properties str_dict str_capabilities) s)
      = match _node_state (self s) with
        | Some _ => []
        | None => [GetNodeState n]
        end).
Proof.
  split.
  - intros Hnode. unfold __str__. run_method. by rewrite Hnode.
  - intros n Hnode.
    destruct (_node_state (self s)) as [node_state|] eqn:Hcache.
    + unfold __str__. run_method.
      rewrite Hnode; cbn; rewrite Hcache; cbn; rewrite Hcache; cbn.
      split; [by eexists|]. split; [done|].
      apply calls_since_app. by rewrite app_nil_r.
    + unfold __str__. run_method.
      rewrite Hnode; cbn; rewrite Hcache; cbn.
      split; [by eexists|]. split; [done|].
      by apply calls_since_app.
Qed.

End text.

(** ** Worked examples of the further properties *)

Section further_examples.

Import CloudifyContext.

Let db1 : State (gmap string dict) := Examples.fresh_state Examples.db1 ∅ 0.
Let no_node : State (gmap string dict) := Examples.fresh_state Examples.no_node ∅ 0.
Let start_task : State (gmap string dict) :=
  Examples.fresh_state Examples.db1_start Examples.two_handlers 2.
Let first_task : State (gmap string dict) :=
  Examples.fresh_state Examples.db1_start ∅ 0.

(** Writing the declared key ["port"]: the runtime properties have the
    written 1, the indexed get still returns the declared 5432. *)
Lemma setitem_then_read_witness :
  let s' := after (__setitem__ "port" (VInt 1)) db1 in
  runtime_properties s' = (Ok {[ "port" := VInt 1 ]}, s') /\
  __getitem__ "port" s' = (Ok (VInt 5432), s').
Proof.
  intros s'.
  destruct (setitem_then_read db1 "port" (VInt 1) "db1" eq_refl)
    as (Hruntime & _ & Hget).
  split; [exact Hruntime|exact Hget].
Defined.

(** Write ["host"], flush, read: the value comes back from the storage
    after a get, an update and a second get. *)
Lemma setitem_update_getitem_witness :
  let flushed := run [CallSetItem "host" (VStr "h"); CallUpdate] db1 in
  outcome (__getitem__ "host") flushed = Ok (VStr "h") /\
  calls_since db1 (after (__getitem__ "host") flushed)
  = [GetNodeState "db1";
     UpdateNodeState (NodeState.mk "db1" {[ "host" := VStr "h" ]});
     GetNodeState "db1"].
Proof.
  intros flushed.
  assert (forall props,
             Payload.node_properties (_context (self db1)) = Some props ->
             props !! "host" = None) as Hundeclared
    by (intros props [= <-]; reflexivity).
  exact (setitem_update_getitem db1 "host" (VStr "h") "db1" eq_refl Hundeclared eq_refl).
Defined.

Lemma setitem_update_compose_witness :
  run [CallSetItem "a" (VInt 1); CallSetItem "a" (VInt 2)] db1
  = run [CallSetItem "a" (VInt 2)] db1 /\
  run [CallSetItem "a" (VInt 1); CallSetItem "b" (VInt 2)] db1
  = run [CallSetItem "b" (VInt 2); CallSetItem "a" (VInt 1)] db1.
Proof.
  destruct (setitem_update_compose db1 "a" "b" (VInt 1) (VInt 2) "db1" eq_refl)
    as (Hlast & Hswap & _).
  split; [exact Hlast|]. by apply Hswap.
Defined.

(** Started, a failed get, stopped, a flush: the flag is [stopped]. *)
Lemma lifecycle_last_setter_witness :
  _lifecycle_state
    (self (run [CallSetStarted; CallGetItem "zone"; CallSetStopped; CallUpdate] db1))
  = Some STOPPED.
Proof.
  apply (lifecycle_last_setter
           [CallSetStarted; CallGetItem "zone"; CallSetStopped; CallUpdate] db1 "db1").
  reflexivity.
Defined.

(** The first task of a process: the logger [tasks.start] is created and
    wired. *)
Lemma logger_wiring_witness :
  outcome logger first_task = Ok (Some "tasks.start") /\
  logger (after logger first_task) = (Ok (Some "tasks.start"), after logger first_task).
Proof.
  destruct (logger_wiring first_task eq_refl) as (Hname & _ & _ & Honce).
  split; [exact Hname|exact Honce].
Defined.

(** With [console] and [logfile] attached beforehand, [logfile] stays. *)
Lemma logger_wiring_handlers_witness :
  loggers (after logger start_task) !! "tasks.start"
  = Some (logging.mk_logger logging.INFO
            [Examples.logfile;
             logging.mk_handler 2 logging.CloudifyPluginLoggingHandler
                                (Some "%(message)s")]
            true).
Proof.
  destruct (logger_wiring_handlers start_task
              (logging.mk_logger logging.NOTSET [Examples.console; Examples.logfile] true)
              eq_refl eq_refl) as [Hwired _].
  - apply NoDup_cons. split; [|apply NoDup_singleton].
    intros Hin. apply elem_of_cons in Hin as [Heq|Hin]; [discriminate Heq|].
    by apply elem_of_nil in Hin.
  - intros Hin. apply elem_of_cons in Hin as [Heq|Hin]; [discriminate Heq|].
    apply elem_of_cons in Hin as [Heq|Hin]; [discriminate Heq|].
    by apply elem_of_nil in Hin.
  - exact Hwired.
Defined.

(** A second task [tasks.start] in the same process: its handler replaces
    the one of the first task. *)
Lemma logger_second_context_witness :
  let second := next_context (Examples.context_of Examples.db1_start)
                             (after logger first_task) in
  loggers (after logger second) !! "tasks.start"
  = Some (logging.mk_logger logging.INFO
            [logging.mk_handler 1 logging.CloudifyPluginLoggingHandler
                                (Some "%(message)s")]
            true).
Proof.
  intros second.
  by destruct (logger_second_context first_task (Examples.context_of Examples.db1_start)
                 eq_refl eq_refl eq_refl eq_refl) as [Hwired _].
Defined.

(** Three accesses to the logger among other calls create one handler. *)
Lemma logger_wired_once_witness :
  let s' := run [CallLogger; CallSetItem "a" (VInt 1); CallLogger; CallUpdate; CallLogger]
                first_task in
  next_handler_id s' = 1 /\ _logger (self s') = Some "tasks.start".
Proof.
  intros s'.
  destruct (logger_wired_once
              [CallLogger; CallSetItem "a" (VInt 1); CallLogger; CallUpdate; CallLogger]
              first_task) as (_ & _ & Honce).
  apply Honce; [reflexivity|]. apply elem_of_cons. by left.
Defined.

(** The text of a context without a node cannot be had; the text of [db1]
    costs a fetch. *)
Lemma str_reads_runtime_properties_witness :
  __str__ (fun _ => "n") (fun _ => "p") (fun _ => "r") (fun _ => "c") no_node
  = (Raise (RuntimeError MsgNoNodeState), no_node) /\
  calls_since db1
    (after (__str__ (fun _ => "n") (fun _ => "p") (fun _ => "r") (fun _ => "c")) db1)
  = [GetNodeState "db1"].
Proof.
  destruct (str_reads_runtime_properties
              (fun _ => "n") (fun _ => "p") (fun _ => "r") (fun _ => "c") no_node)
    as [Hnone _].
  destruct (str_reads_runtime_properties
              (fun _ => "n") (fun _ => "p") (fun _ => "r") (fun _ => "c") db1)
    as [_ Hnode].
  split; [by apply Hnone|].
  by destruct (Hnode "db1" eq_refl) as (_ & _ & Hcalls).
Defined.

End further_examples.
